(** * Retrieval-augmented chat responder: ingestion, retrieval, prompt assembly

    A shallow embedding of [backend/app/embeddings.py] (and of the call made
    by [backend/app/routes/chatbot.py]) together with the properties of the
    chunker, the ingestion pipeline, the retriever, the context assembler and
    the response generator.

    Modelling conventions.
    - Python text is [string]; the development covers ASCII text, on which
      [str.upper] and [str.strip] act as defined below.
    - Python values whose type the code does not fix are elements of [pyval];
      a dict is an association list in insertion order, its keys are strings
      (every dict built or consumed by the module is keyed by strings).
    - A computation that may raise is a [result]; the exception carries its
      class, and a handler [except C] catches it when the class derives
      from [C]. The classes are those deriving from [Exception], the ones
      the module's handlers are written for.
    - The vector store is a finite map from document ids to documents. What
      the store and the other services decide on their own (nearest
      neighbours, validation, availability, the model's answer) is an
      oracle of the [Services] interface.

    The file has two parts: the embedding, then the properties. *)

From Stdlib Require Import String Ascii ZArith QArith Lia.
From stdpp Require Import base list gmap strings pretty.

Open Scope nat_scope.

(** * Part I: the embedding *)

(** ** Exceptions and fallible computations *)

Inductive exn_class : Set :=
| Exception
| LookupError | KeyError | IndexError
| TypeError | AttributeError | RuntimeError
| ValueError | JSONDecodeError
| ChromaError | DuplicateIDError
| OpenAIError | APIError
| APIConnectionError | APITimeoutError
| APIStatusError | RateLimitError | AuthenticationError.

#[global] Instance exn_class_eq_dec : EqDecision exn_class.
Proof. solve_decision. Defined.

(** The direct base class: Python's built-in hierarchy, chromadb's
    [errors] module and the [openai] package at version 1, the API
    generation the module calls ([openai.chat.completions.create],
    [openai.embeddings.create]). *)
Definition parent (c : exn_class) : option exn_class :=
  match c with
  | Exception => None
  | LookupError => Some Exception
  | KeyError | IndexError => Some LookupError
  | TypeError | AttributeError | RuntimeError | ValueError => Some Exception
  | JSONDecodeError => Some ValueError
  | ChromaError => Some Exception
  | DuplicateIDError => Some ChromaError
  | OpenAIError => Some Exception
  | APIError => Some OpenAIError
  | APIConnectionError | APIStatusError => Some APIError
  | APITimeoutError => Some APIConnectionError
  | RateLimitError | AuthenticationError => Some APIStatusError
  end.

Fixpoint derives_upto (depth : nat) (c d : exn_class) : bool :=
  if decide (c = d) then true
  else match depth with
       | O => false
       | S depth' =>
           match parent c with
           | Some p => derives_upto depth' p d
           | None => false
           end
       end.

(** [isinstance(e, d)] for an exception [e] of class [c]. *)
Definition derives (c d : exn_class) : bool := derives_upto 8 c d.

Inductive result (A : Type) : Type :=
| Ok (a : A)
| Raise (e : exn_class).
Arguments Ok {A} a.
Arguments Raise {A} e.

#[global] Instance result_ret : MRet result := @Ok.
#[global] Instance result_bind : MBind result := λ A B f m,
  match m with
  | Ok a => f a
  | Raise e => Raise e
  end.

(** [try: body / except C: handler]. *)
Definition try_except {A} (body : result A) (C : exn_class)
    (handler : exn_class → result A) : result A :=
  match body with
  | Ok a => Ok a
  | Raise e => if derives e C then handler e else Raise e
  end.

(** ** Python values *)

#[local] Set Warnings "-register-all".

Inductive pyval : Type :=
| PNone
| PBool (b : bool)
| PInt (n : Z)
| PFloat (q : Q)
| PStr (s : string)
| PList (l : list pyval)
| PDict (d : list (string * pyval)).

Abbreviation pydict := (list (string * pyval)).

(** [d.get(k)] seen as a partial map, and [d.get(k, default)]. *)
Fixpoint dict_lookup (k : string) (d : pydict) : option pyval :=
  match d with
  | [] => None
  | (k', v) :: d' => if String.eqb k k' then Some v else dict_lookup k d'
  end.

Definition dict_get (d : pydict) (k : string) (dflt : pyval) : pyval :=
  default dflt (dict_lookup k d).

(** [bool(v)]. *)
Definition truthy (v : pyval) : bool :=
  match v with
  | PNone => false
  | PBool b => b
  | PInt n => negb (n =? 0)%Z
  | PFloat q => negb (Qeq_bool q 0)
  | PStr s => negb (String.eqb s EmptyString)
  | PList l => match l with [] => false | _ => true end
  | PDict d => match d with [] => false | _ => true end
  end.

(** The rational value of a number, for comparisons across [bool], [int]
    and [float]. *)
Definition numeric (v : pyval) : option Q :=
  match v with
  | PBool b => Some (if b then 1%Q else 0%Q)
  | PInt n => Some (inject_Z n)
  | PFloat q => Some q
  | _ => None
  end.

(** [a == b]. *)
Fixpoint py_eq (a b : pyval) {struct a} : bool :=
  match a, b with
  | PNone, PNone => true
  | PStr s, PStr t => String.eqb s t
  | PList l, PList m =>
      (fix all2 (l m : list pyval) : bool :=
         match l, m with
         | [], [] => true
         | x :: l', y :: m' => py_eq x y && all2 l' m'
         | _, _ => false
         end) l m
  | PDict d, PDict e =>
      Nat.eqb (length d) (length e) &&
      (fix all_in (d : pydict) : bool :=
         match d with
         | [] => true
         | (k, v) :: d' =>
             match dict_lookup k e with
             | Some w => py_eq v w
             | None => false
             end && all_in d'
         end) d
  | PBool x, _ =>
      match numeric b with
      | Some q => Qeq_bool (if x then 1%Q else 0%Q) q
      | None => false
      end
  | PInt x, _ =>
      match numeric b with
      | Some q => Qeq_bool (inject_Z x) q
      | None => false
      end
  | PFloat x, _ =>
      match numeric b with
      | Some q => Qeq_bool x q
      | None => false
      end
  | _, _ => false
  end.

(** [a or b]. *)
Definition py_or (a b : pyval) : pyval := if truthy a then a else b.

(** [len(v)]. *)
Definition py_len (v : pyval) : result nat :=
  match v with
  | PStr s => Ok (String.length s)
  | PList l => Ok (length l)
  | PDict d => Ok (length d)
  | _ => Raise TypeError
  end.

Definition char_str (c : ascii) : string := String c EmptyString.

(** [v[i]] for a non-negative integer [i]. A dict is keyed by strings, so
    an integer key is never present. *)
Definition py_getitem_int (v : pyval) (i : nat) : result pyval :=
  match v with
  | PList l =>
      match l !! i with
      | Some x => Ok x
      | None => Raise IndexError
      end
  | PStr s =>
      match String.get i s with
      | Some c => Ok (PStr (char_str c))
      | None => Raise IndexError
      end
  | PDict _ => Raise KeyError
  | _ => Raise TypeError
  end.

(** [v[k]] for a string [k]. *)
Definition py_getitem_str (v : pyval) (k : string) : result pyval :=
  match v with
  | PDict d =>
      match dict_lookup k d with
      | Some x => Ok x
      | None => Raise KeyError
      end
  | _ => Raise TypeError
  end.

(** [v.get(k, default)]; only a dict has the method. *)
Definition py_get (v : pyval) (k : string) (dflt : pyval) : result pyval :=
  match v with
  | PDict d => Ok (dict_get d k dflt)
  | _ => Raise AttributeError
  end.

(** The elements [for x in v] visits. *)
Definition py_iter (v : pyval) : result (list pyval) :=
  match v with
  | PList l => Ok l
  | PStr s => Ok (PStr ∘ char_str <$> list_ascii_of_string s)
  | PDict d => Ok (PStr ∘ fst <$> d)
  | _ => Raise TypeError
  end.

(** [enumerate(l)]. *)
Definition enumerate {A} (l : list A) : list (nat * A) :=
  zip (seq 0 (length l)) l.

(** ** Text

    A Python [str] is carried as a [string] with one character per code
    point, so lengths, indices and slices count what Python counts; the
    characters of a [string] are the code points U+0000 to U+00FF. *)

Definition nl : string := String (ascii_of_nat 10) EmptyString.
Definition dq : string := String (ascii_of_nat 34) EmptyString.
Definition nbsp : string := String (ascii_of_nat 160) EmptyString.

(** [c.upper()] and [s.upper()] on ASCII text. *)
Definition upper_char (c : ascii) : ascii :=
  let n := nat_of_ascii c in
  if (97 <=? n) && (n <=? 122) then ascii_of_nat (n - 32) else c.

Fixpoint upper (s : string) : string :=
  match s with
  | EmptyString => EmptyString
  | String c s' => String (upper_char c) (upper s')
  end.

(** [c.isspace()], the test [str.strip()] removes characters by, on the
    code points U+0000 to U+00FF: tab, line feed, vertical tab, form feed,
    carriage return, the four separators U+001C to U+001F, the space, the
    next-line control U+0085 and the no-break space U+00A0. *)
Definition is_space (c : ascii) : bool :=
  let n := nat_of_ascii c in
  ((9 <=? n) && (n <=? 13)) || ((28 <=? n) && (n <=? 31)) || (n =? 32)
  || (n =? 133) || (n =? 160).

Fixpoint lstrip (s : string) : string :=
  match s with
  | EmptyString => EmptyString
  | String c s' => if is_space c then lstrip s' else s
  end.

Fixpoint rstrip (s : string) : string :=
  match s with
  | EmptyString => EmptyString
  | String c s' =>
      match rstrip s' with
      | EmptyString => if is_space c then EmptyString else char_str c
      | r => String c r
      end
  end.

(** [s.strip()]. *)
Definition strip (s : string) : string := rstrip (lstrip s).

(** [sub in s]. *)
Fixpoint contains (sub s : string) : bool :=
  String.prefix sub s ||
  match s with
  | EmptyString => false
  | String _ s' => contains sub s'
  end.

(** [s.split(sep)] for a non-empty separator: [cur] is the piece being
    read, [skip] the number of characters of a matched separator still to
    pass over. *)
Fixpoint split_go (sep s : string) (skip : nat) (cur : string) : list string :=
  match s with
  | EmptyString => [cur]
  | String c s' =>
      match skip with
      | S k => split_go sep s' k cur
      | O =>
          if String.prefix sep s
          then cur :: split_go sep s' (String.length sep - 1) EmptyString
          else split_go sep s' 0 (cur +:+ char_str c)
      end
  end.

Definition split (s sep : string) : list string := split_go sep s 0 EmptyString.

(** [re.sub(r'<[^>]*>', ' ', s)]: a tag runs from a [<] to the first [>]
    after it; a [<] with no [>] after it is kept. *)
Fixpoint has_char (c : ascii) (s : string) : bool :=
  match s with
  | EmptyString => false
  | String c' s' => Ascii.eqb c c' || has_char c s'
  end.

Fixpoint strip_tags_go (s : string) (in_tag : bool) : string :=
  match s with
  | EmptyString => EmptyString
  | String c s' =>
      if in_tag then
        if Ascii.eqb c ">" then String " " (strip_tags_go s' false)
        else strip_tags_go s' true
      else if Ascii.eqb c "<" && has_char ">" s' then strip_tags_go s' true
      else String c (strip_tags_go s' false)
  end.

Definition strip_tags (s : string) : string := strip_tags_go s false.

(** [str(v)], as an f-string renders a value. The rendering of a float, a
    list or a dict is left to [repr_other]. *)
Definition py_str_with (repr_other : pyval → string) (v : pyval) : string :=
  match v with
  | PStr s => s
  | PNone => "None"
  | PBool true => "True"
  | PBool false => "False"
  | PInt n => pretty n
  | _ => repr_other v
  end.

(** ** Content chunker

    The sliding window of [add_projects_to_vector_db] (lines 257-265). Python
    slicing and [range] work on any sequence, so the chunker is polymorphic
    in the element type. *)

(** [s[i:j]] for non-negative [i] and [j]. *)
Definition py_slice {A} (s : list A) (i j : nat) : list A :=
  take (j - i) (drop i s).

(** [range(i, stop, step)] for a positive step, unrolled as the loop it
    drives; [fuel] bounds the number of iterations. *)
Fixpoint range_go (fuel i stop step : nat) : list nat :=
  match fuel with
  | O => []
  | S fuel' =>
      if decide (i < stop) then i :: range_go fuel' (i + step) stop step
      else []
  end.

Definition py_range (start stop step : nat) : list nat :=
  range_go (stop - start) start stop step.

(** One iteration of the loop body:
    [chunk = content_text[i:i + chunk_size]; if chunk: chunks.append(chunk)]. *)
Definition chunk_step {A} (text : list A) (chunk_size : nat)
    (chunks : list (list A)) (i : nat) : list (list A) :=
  let chunk := py_slice text i (i + chunk_size) in
  match chunk with
  | [] => chunks
  | _ :: _ => chunks ++ [chunk]
  end.

Definition chunk_windows {A} (chunk_size overlap : nat) (text : list A)
    : list (list A) :=
  foldl (chunk_step text chunk_size) []
        (py_range 0 (length text) (chunk_size - overlap)).

(** The instance used by the source: [chunk_size = 1000], [overlap = 100]. *)
Definition chunk_content {A} (text : list A) : list (list A) :=
  chunk_windows 1000 100 text.

(** The window that starts at the [k]-th multiple of the step, the chunk
    the properties of the chunker speak of. *)
Definition window {A} (size overlap : nat) (text : list A) (k : nat) : list A :=
  py_slice text (k * (size - overlap)) (k * (size - overlap) + size).

(** The chunks of a value that passed [len(content_text) > 1000]: a string
    is cut into strings, a list into lists; a dict has a length but cannot
    be sliced. *)
Definition chunk_value (content_text : pyval) : result (list pyval) :=
  match content_text with
  | PStr s =>
      Ok (PStr ∘ string_of_list_ascii <$> chunk_content (list_ascii_of_string s))
  | PList l => Ok (PList <$> chunk_content l)
  | _ => Raise TypeError
  end.

(** ** The vector store *)

Record document : Type := Document {
  doc_text : string;
  doc_meta : pydict
}.

Abbreviation corpus := (gmap string document).

(** The filters the module passes as [where]: [{key: {"$eq": operand}}] and
    [{"$and": [...]}]. *)
Inductive where_clause : Type :=
| WEq (key : string) (operand : pyval)
| WAnd (clauses : list where_clause).

(** The store's [$eq]: a metadata value equals an operand of the same
    scalar type. *)
Definition md_eq (v operand : pyval) : bool :=
  match v, operand with
  | PStr a, PStr b => String.eqb a b
  | PInt a, PInt b => (a =? b)%Z
  | PFloat a, PFloat b => Qeq_bool a b
  | PBool a, PBool b => Bool.eqb a b
  | _, _ => false
  end.

Fixpoint where_matches (w : where_clause) (meta : pydict) : bool :=
  match w with
  | WEq key operand =>
      match dict_lookup key meta with
      | Some v => md_eq v operand
      | None => false
      end
  | WAnd clauses =>
      (fix all (ws : list where_clause) : bool :=
         match ws with
         | [] => true
         | w' :: ws' => where_matches w' meta && all ws'
         end) clauses
  end.

(** A batched query answer of the store: one inner list per query text. *)
Record query_result : Type := QueryResult {
  qr_documents : list (list string);
  qr_metadatas : list (list pydict);
  qr_distances : list (list Q)
}.

(** The answer of the language-model service: the message content of each
    choice, a string or [None]. *)
Record completion : Type := Completion {
  choices : list pyval
}.

(** What the collaborators decide: the rendering of compound values,
    [json.loads], whether a store call fails, the neighbours a query finds,
    and the model's answer to a system prompt and a user message. *)
Class Services : Type := {
  repr_other : pyval → string;
  json_loads : string → result pyval;
  get_collection_raises : option exn_class;
  delete_raises : where_clause → corpus → option exn_class;
  add_raises : corpus → list pyval → list pydict → list string → option exn_class;
  count_raises : corpus → option exn_class;
  query_oracle : corpus → string → nat → option where_clause → result query_result;
  chat_completion : string → string → result completion
}.

Definition py_str `{Services} (v : pyval) : string := py_str_with repr_other v.

Definition raise_if (e : option exn_class) : result unit :=
  match e with
  | Some e => Raise e
  | None => Ok ()
  end.

(** [chroma_client.get_or_create_collection(...)]. *)
Definition get_or_create_collection `{Services} : result unit :=
  raise_if get_collection_raises.

(** [collection.delete(where=w)]: the documents whose metadata match are
    removed. *)
Definition collection_delete `{Services} (w : where_clause) (c : corpus)
    : result corpus :=
  _ ← raise_if (delete_raises w c);
  Ok (filter (λ kv, where_matches w (doc_meta kv.2) = false) c).

Definition as_text (v : pyval) : result string :=
  match v with
  | PStr s => Ok s
  | _ => Raise ValueError
  end.

Fixpoint as_texts (vs : list pyval) : result (list string) :=
  match vs with
  | [] => Ok []
  | v :: vs' => s ← as_text v; ss ← as_texts vs'; Ok (s :: ss)
  end.

(** [collection.add(documents=..., metadatas=..., ids=...)]: the three lists
    have one length, the ids of a batch are distinct, a document is text; an
    id already in the collection keeps its document. A call that fails
    leaves the collection as it was. *)
Definition collection_add `{Services} (documents : list pyval)
    (metadatas : list pydict) (ids : list string) (c : corpus) : result corpus :=
  _ ← raise_if (add_raises c documents metadatas ids);
  if negb ((length documents =? length ids) && (length metadatas =? length ids))
  then Raise ValueError
  else if negb (bool_decide (NoDup ids)) then Raise DuplicateIDError
  else
    texts ← as_texts documents;
    Ok (c ∪ list_to_map (zip ids (zip_with Document texts metadatas))).

(** [collection.count()]. *)
Definition collection_count `{Services} (c : corpus) : result nat :=
  _ ← raise_if (count_raises c);
  Ok (size c).

(** [collection.query(query_texts=[q], n_results=n, where=w)]. *)
Definition collection_query `{Services} (c : corpus) (q : string) (n : nat)
    (w : option where_clause) : result query_result :=
  query_oracle c q n w.

(** ** State threaded through a procedure

    A step may change the state and may raise; what it changed stays
    changed when it raises (Python mutates in place). *)

Definition state_m (S A : Type) : Type := S → S * result A.

Definition st_ret {S A} (a : A) : state_m S A := λ s, (s, Ok a).

Definition st_bind {S A B} (f : A → state_m S B) (m : state_m S A)
    : state_m S B :=
  λ s, match m s with
       | (s', Ok a) => f a s'
       | (s', Raise e) => (s', Raise e)
       end.

#[global] Instance state_m_ret {S} : MRet (state_m S) := @st_ret S.
#[global] Instance state_m_bind {S} : MBind (state_m S) := @st_bind S.

Definition st_lift {S A} (r : result A) : state_m S A := λ s, (s, r).

(** A call that replaces the state when it succeeds. *)
Definition st_update {S} (f : S → result S) : state_m S unit :=
  λ s, match f s with
       | Ok s' => (s', Ok ())
       | Raise e => (s, Raise e)
       end.

Definition st_try {S A} (body : state_m S A) (C : exn_class)
    (handler : exn_class → state_m S A) : state_m S A :=
  λ s, match body s with
       | (s', Ok a) => (s', Ok a)
       | (s', Raise e) => if derives e C then handler e s' else (s', Raise e)
       end.

Fixpoint st_for {S A} (l : list A) (body : A → state_m S unit)
    : state_m S unit :=
  match l with
  | [] => st_ret ()
  | x :: l' => _ ← body x; st_for l' body
  end.

(** A procedure preserves a property of the state when the state it
    leaves has the property whenever the state it started from has it,
    however the procedure ends. *)
Definition preserves {S A} (P : S → Prop) (m : state_m S A) : Prop :=
  ∀ s, P s → P (m s).1.

(** ** Ingestion *)

(** The three lists [documents], [metadatas], [ids] an ingestion function
    fills side by side. *)
Definition entries : Type := list pyval * list pydict * list string.

Definition append_entry (acc : entries) (doc : pyval) (meta : pydict)
    (id : string) : entries :=
  let '(documents, metadatas, ids) := acc in
  (documents ++ [doc], metadatas ++ [meta], ids ++ [id]).

Definition project_meta (subcategory : string) (chunk_keys : pydict)
    (project : pydict) (project_id user_id : pyval) : pydict :=
  [("category", PStr "project"); ("subcategory", PStr subcategory)]
  ++ chunk_keys
  ++ [("project_id", project_id);
      ("project_category", dict_get project "category" (PStr EmptyString));
      ("user_id", user_id)].

(** The title, description and details blocks (lines 188-222). *)
Definition project_field_entry `{Services} (project : pydict)
    (project_id user_id : pyval) (acc : entries) (field : string) : entries :=
  if truthy (dict_get project field PNone) then
    append_entry acc (dict_get project field PNone)
      (project_meta field [] project project_id user_id)
      ("project_" +:+ field +:+ "_" +:+ py_str project_id
                  +:+ "_" +:+ py_str user_id)
  else acc.

Definition re_sub_tags (v : pyval) : result pyval :=
  match v with
  | PStr s => Ok (PStr (strip_tags s))
  | _ => Raise TypeError
  end.

Definition loads `{Services} (v : pyval) : result pyval :=
  match v with
  | PStr s => json_loads s
  | _ => Raise TypeError
  end.

(** The text of a project's content (lines 225-252): the HTML rendition
    with its tags stripped, else the rendition inside the JSON payload,
    else the raw content; any failure falls back to the raw content. *)
Definition content_of `{Services} (project : pydict) : result pyval :=
  let content := dict_get project "content" PNone in
  if truthy content then
    try_except
      (if truthy (dict_get project "content_html" PNone) then
         re_sub_tags (dict_get project "content_html" PNone)
       else
         content_data ← loads content;
         html ← py_get content_data "html" PNone;
         if truthy html then
           html ← py_getitem_str content_data "html";
           re_sub_tags html
         else Ok content)
      Exception (λ _, Ok content)
  else Ok (PStr EmptyString).

Definition chunk_entry `{Services} (project : pydict)
    (project_id user_id : pyval) (total_chunks : nat) (acc : entries)
    (ic : nat * pyval) : entries :=
  let '(i, chunk) := ic in
  append_entry acc chunk
    (project_meta "content"
       [("chunk_index", PInt (Z.of_nat i));
        ("total_chunks", PInt (Z.of_nat total_chunks))]
       project project_id user_id)
    ("project_content_" +:+ py_str project_id +:+ "_" +:+ pretty i
                        +:+ "_" +:+ py_str user_id).

(** The content block (lines 254-290). *)
Definition content_entries `{Services} (project : pydict)
    (project_id user_id : pyval) (acc : entries) : result entries :=
  content_text ← content_of project;
  if truthy content_text then
    n ← py_len content_text;
    if 1000 <? n then
      chunks ← chunk_value content_text;
      Ok (foldl (chunk_entry project project_id user_id (length chunks))
                acc (enumerate chunks))
    else
      Ok (append_entry acc content_text
            (project_meta "content" [] project project_id user_id)
            ("project_content_" +:+ py_str project_id
                                +:+ "_" +:+ py_str user_id))
  else Ok acc.

(** One iteration of [for project in projects_list]. *)
Definition project_entry `{Services} (user_id : pyval) (acc : entries)
    (project : pyval) : result entries :=
  match project with
  | PDict p =>
      let project_id := dict_get p "id" PNone in
      if negb (truthy project_id) then Ok acc
      else
        content_entries p project_id user_id
          (foldl (project_field_entry p project_id user_id) acc
                 ["title"; "description"; "details"])
  | _ => Raise AttributeError
  end.

Fixpoint project_entries `{Services} (user_id : pyval) (acc : entries)
    (projects : list pyval) : result entries :=
  match projects with
  | [] => Ok acc
  | project :: rest =>
      acc' ← project_entry user_id acc project;
      project_entries user_id acc' rest
  end.

Definition project_documents `{Services} (projects_list user_id : pyval)
    : result entries :=
  projects ← py_iter projects_list;
  project_entries user_id ([], [], []) projects.

Definition add_entries `{Services} (e : entries) : state_m corpus unit :=
  let '(documents, metadatas, ids) := e in
  match documents with
  | [] => st_ret ()
  | _ :: _ => st_update (collection_add documents metadatas ids)
  end.

Definition add_projects_to_vector_db `{Services}
    (projects_list user_id : pyval) : state_m corpus bool :=
  if negb (truthy projects_list) then st_ret true
  else
    st_try
      (_ ← st_lift get_or_create_collection;
       _ ← st_try
             (st_update (collection_delete (WEq "category" (PStr "project"))))
             Exception (λ _, st_ret ());
       e ← st_lift (project_documents projects_list user_id);
       _ ← add_entries e;
       st_ret true)
      Exception (λ _, st_ret false).

Definition profile_fields : list string :=
  ["name"; "location"; "bio"; "skills"; "experience"; "projects"; "interests"].

(** One of the seven blocks of lines 93-133. *)
Definition profile_field_entry `{Services} (profile_data : pydict)
    (effective_user_id : pyval) (acc : entries) (field : string) : entries :=
  if truthy (dict_get profile_data field PNone) then
    append_entry acc (dict_get profile_data field PNone)
      [("category", PStr "profile"); ("subcategory", PStr field);
       ("user_id", effective_user_id)]
      (field +:+ "_" +:+ py_str effective_user_id)
  else acc.

Definition profile_documents `{Services} (profile_data effective_user_id : pyval)
    : result entries :=
  match profile_data with
  | PDict p =>
      Ok (foldl (profile_field_entry p effective_user_id) ([], [], [])
                profile_fields)
  | _ => Raise AttributeError
  end.

Definition add_profile_to_vector_db `{Services}
    (profile_data user_id : pyval) : state_m corpus bool :=
  st_try
    (_ ← st_lift get_or_create_collection;
     given ← st_lift (if truthy user_id then Ok user_id
                      else py_get profile_data "user_id" PNone);
     let effective_user_id := if truthy given then given else PStr "default" in
     _ ← st_try
           (st_update (collection_delete
              (WAnd [WEq "category" (PStr "profile");
                     WEq "user_id" effective_user_id])))
           Exception (λ _, st_ret ());
     e ← st_lift (profile_documents profile_data effective_user_id);
     _ ← add_entries e;
     project_list ← st_lift (py_get profile_data "project_list" (PList []));
     _ ← add_projects_to_vector_db project_list effective_user_id;
     st_ret true)
    Exception (λ _, st_ret false).

(** ** Retrieval *)

(** The dict [query_vector_db] returns: three parallel lists. *)
Record result_set : Type := ResultSet {
  documents : list string;
  metadatas : list pydict;
  distances : list Q
}.

Definition empty_results : result_set := ResultSet [] [] [].

(** The returned value as the Python dict it is. *)
Definition result_set_to_py (r : result_set) : pyval :=
  PDict [("documents", PList (PStr <$> documents r));
         ("metadatas", PList (PDict <$> metadatas r));
         ("distances", PList (PFloat <$> distances r))].

(** [l[i]] on a list. *)
Definition item {A} (l : list A) (i : nat) : result A :=
  match l !! i with
  | Some x => Ok x
  | None => Raise IndexError
  end.

(** [rows[0]] and [rows[0].append(x)]. *)
Definition first_row {A} (rows : list (list A)) : result (list A) :=
  item rows 0.

Definition append_first {A} (x : A) (rows : list (list A))
    : result (list (list A)) :=
  match rows with
  | [] => Raise IndexError
  | row :: rest => Ok ((row ++ [x]) :: rest)
  end.

(** The body of the merge loop (lines 413-416): three appends in a row,
    each of which may fail after the ones before it took effect. *)
Definition merge_one (conversation_results : query_result) (i : nat)
    (doc : string) : state_m query_result unit :=
  _ ← st_update (λ results,
        rows ← append_first doc (qr_documents results);
        Ok (QueryResult rows (qr_metadatas results) (qr_distances results)));
  _ ← st_update (λ results,
        _ ← first_row (qr_metadatas results);
        found ← first_row (qr_metadatas conversation_results);
        meta ← item found i;
        rows ← append_first meta (qr_metadatas results);
        Ok (QueryResult (qr_documents results) rows (qr_distances results)));
  st_update (λ results,
        _ ← first_row (qr_distances results);
        found ← first_row (qr_distances conversation_results);
        dist ← item found i;
        rows ← append_first dist (qr_distances results);
        Ok (QueryResult (qr_documents results) (qr_metadatas results) rows)).

Definition conversation_filter (visitor_id : pyval) : where_clause :=
  WAnd [WEq "category" (PStr "conversation"); WEq "visitor_id" visitor_id].

(** The conversation-history step (lines 393-419), with its own handler. *)
Definition merge_conversation `{Services} (c : corpus) (query : string)
    (visitor_id : pyval) : state_m query_result unit :=
  st_try
    (conversation_results ←
       st_lift (collection_query c query 3
                  (Some (conversation_filter visitor_id)));
     found ← st_lift (first_row (qr_documents conversation_results));
     if 0 <? length found then
       st_for (enumerate found)
              (λ '(i, doc), merge_one conversation_results i doc)
     else st_ret ())
    Exception (λ _, st_ret ()).

Definition push_result (acc : result_set) (doc : string) (meta : pydict)
    (dist : Q) : result_set :=
  ResultSet (documents acc ++ [doc]) (metadatas acc ++ [meta])
            (distances acc ++ [dist]).

(** One iteration of [for i, meta in enumerate(metadatas)] (lines 433-449). *)
Definition filter_step (user_id : pyval) (docs : list string)
    (dists : list Q) (acc : result_set) (im : nat * pydict) : result result_set :=
  let '(i, meta) := im in
  let category := dict_get meta "category" PNone in
  let doc_user_id := dict_get meta "user_id" PNone in
  if py_eq category (PStr "conversation") then
    doc ← item docs i; dist ← item dists i;
    Ok (push_result acc doc meta dist)
  else if py_eq doc_user_id user_id then
    doc ← item docs i; dist ← item dists i;
    Ok (push_result acc doc meta dist)
  else Ok acc.

Fixpoint filter_loop (user_id : pyval) (docs : list string) (dists : list Q)
    (acc : result_set) (items : list (nat * pydict)) : result result_set :=
  match items with
  | [] => Ok acc
  | im :: rest =>
      acc' ← filter_step user_id docs dists acc im;
      filter_loop user_id docs dists acc' rest
  end.

(** The residual owner filter (lines 427-456). *)
Definition owner_filter (user_id : pyval) (docs : list string)
    (metas : list pydict) (dists : list Q) : result result_set :=
  filter_loop user_id docs dists empty_results (enumerate metas).

(** Lines 421-463: the first row of each list, filtered when an owner is
    given. *)
Definition structure_results (user_id : pyval) (results : query_result)
    : result result_set :=
  docs ← first_row (qr_documents results);
  metas ← first_row (qr_metadatas results);
  dists ← first_row (qr_distances results);
  if truthy user_id then owner_filter user_id docs metas dists
  else Ok (ResultSet docs metas dists).

(** The [try] block of [query_vector_db] (lines 361-466). *)
Definition query_body `{Services} (c : corpus) (query : string)
    (n_results : nat) (user_id visitor_id : pyval)
    (include_conversation : bool) : result result_set :=
  _ ← get_or_create_collection;
  collection_count ← collection_count c;
  if collection_count =? 0 then Ok empty_results
  else
    results ← collection_query c query n_results None;
    if truthy visitor_id && include_conversation then
      let '(results, outcome) := merge_conversation c query visitor_id results in
      _ ← outcome;
      structure_results user_id results
    else structure_results user_id results.

Definition query_vector_db `{Services} (c : corpus) (query : string)
    (n_results : nat) (user_id visitor_id : pyval)
    (include_conversation : bool) : result result_set :=
  try_except
    (query_body c query n_results user_id visitor_id include_conversation)
    Exception (λ _, Ok empty_results).

(** ** Context assembly and response generation *)

Definition concat_all (parts : list string) : string :=
  foldr String.append EmptyString parts.

(** [a or b] on strings. *)
Definition str_or (a b : string) : string :=
  if String.eqb a EmptyString then b else a.

Definition no_context : string :=
  "No specific information available. Please provide a general response.".

Definition py_upper (v : pyval) : result string :=
  match v with
  | PStr s => Ok (upper s)
  | _ => Raise AttributeError
  end.

Definition py_strip (v : pyval) : result string :=
  match v with
  | PStr s => Ok (strip s)
  | _ => Raise AttributeError
  end.

(** The condition of line 484. *)
Definition has_results (search_results : pyval) : result bool :=
  docs ← py_getitem_str search_results "documents";
  if negb (truthy docs) then Ok false
  else
    n ← py_len docs;
    if negb (0 <? n) then Ok false
    else
      row ← py_getitem_int docs 0;
      n0 ← py_len row;
      Ok (0 <? n0).

(** One iteration of the loop of lines 485-487. *)
Definition context_line `{Services} (search_results : pyval) (context : string)
    (idoc : nat * pyval) : result string :=
  let '(i, doc) := idoc in
  metas ← py_getitem_str search_results "metadatas";
  row ← py_getitem_int metas 0;
  meta ← py_getitem_int row i;
  subcategory ← py_getitem_str meta "subcategory";
  heading ← py_upper subcategory;
  Ok (context +:+ heading +:+ ": " +:+ py_str doc +:+ nl +:+ nl).

Fixpoint context_loop `{Services} (search_results : pyval) (context : string)
    (items : list (nat * pyval)) : result string :=
  match items with
  | [] => Ok context
  | idoc :: rest =>
      context' ← context_line search_results context idoc;
      context_loop search_results context' rest
  end.

(** The relevant-context block (lines 482-492). *)
Definition build_context `{Services} (search_results : pyval) : result string :=
  found ← has_results search_results;
  if found : bool then
    docs ← py_getitem_str search_results "documents";
    row ← py_getitem_int docs 0;
    items ← py_iter row;
    context_loop search_results EmptyString (enumerate items)
  else Ok no_context.

(** [bio[:100]], evaluated for the log line 504: a string and a list can be
    sliced. *)
Definition check_sliceable (v : pyval) : result unit :=
  match v with
  | PStr _ | PList _ => Ok ()
  | _ => Raise TypeError
  end.

(** ['I am ' in bio]. *)
Definition py_contains (needle : string) (v : pyval) : result bool :=
  match v with
  | PStr s => Ok (contains needle s)
  | PList l => Ok (existsb (py_eq (PStr needle)) l)
  | PDict d => Ok (existsb (String.eqb needle ∘ fst) d)
  | _ => Raise TypeError
  end.

(** Lines 505-516; the result is the value stored in [user_name], empty
    when no name was taken from the bio. *)
Definition name_from_bio (bio : pyval) : result string :=
  found ← py_contains "I am " bio;
  if found : bool then
    try_except
      (match bio with
       | PStr s =>
           after ← item (split s "I am ") 1;
           name_part ← item (split after " ") 0;
           if negb (String.eqb name_part EmptyString)
              && (2 <? String.length name_part)
           then Ok name_part
           else Ok EmptyString
       | _ => Raise AttributeError
       end)
      Exception (λ _, Ok EmptyString)
  else Ok EmptyString.

(** Persona-name resolution (lines 494-523). *)
Definition resolve_user_name (profile_data : pyval) : result string :=
  if truthy profile_data then
    name ← py_get profile_data "name" PNone;
    use_name ← (if truthy name
                then stripped ← py_strip name;
                     Ok (negb (String.eqb stripped EmptyString))
                else Ok false);
    user_name ←
      (if use_name : bool then py_strip name
       else
         bio ← py_get profile_data "bio" PNone;
         if truthy bio then
           _ ← check_sliceable bio;
           name_from_bio bio
         else Ok EmptyString);
    Ok (str_or user_name "the person")
  else Ok "the person".

(** The profile block (lines 525-545). *)
Definition build_profile_context `{Services} (profile_data : pyval)
    : result string :=
  if truthy profile_data then
    match profile_data with
    | PDict p =>
        let field k := py_str (dict_get p k (PStr "Not provided")) in
        Ok (concat_all
          [nl;
           "NAME: "; field "name"; nl;
           "LOCATION: "; field "location"; nl;
           "BIO: "; field "bio"; nl;
           "SKILLS: "; field "skills"; nl;
           "EXPERIENCE: "; field "experience"; nl;
           "PROJECTS: "; field "projects"; nl;
           "INTERESTS: "; field "interests"; nl;
           "        "])
    | _ => Raise AttributeError
    end
  else Ok EmptyString.

(** One turn of the history block (lines 552-556). *)
Definition history_line `{Services} (acc : string) (msg : pyval)
    : result string :=
  sender ← py_get msg "sender" PNone;
  if py_eq sender (PStr "user") then
    message ← py_get msg "message" (PStr EmptyString);
    Ok (acc +:+ "Visitor: " +:+ py_str message +:+ nl)
  else
    response ← py_get msg "response" (PStr EmptyString);
    Ok (acc +:+ "You: " +:+ py_str response +:+ nl).

Fixpoint history_loop `{Services} (acc : string) (msgs : list pyval)
    : result string :=
  match msgs with
  | [] => Ok acc
  | msg :: rest => acc' ← history_line acc msg; history_loop acc' rest
  end.

(** The history block (lines 547-559). *)
Definition build_conversation_context `{Services} (chat_history : pyval)
    : result string :=
  if truthy chat_history then
    n ← py_len chat_history;
    if 0 <? n then
      msgs ← py_iter chat_history;
      body ← history_loop ("PREVIOUS CONVERSATION:" +:+ nl) msgs;
      Ok (body +:+ nl)
    else Ok EmptyString
  else Ok EmptyString.

(** The instruction template (lines 562-586). *)
Definition system_prompt (user_name profile_context conversation_context
    context : string) : string :=
  concat_all
    [nl;
     "You are NOT an AI assistant. You ARE "; str_or user_name "the person"; " whose profile information is provided below."; nl;
     nl;
     "When responding, you MUST:"; nl;
     "1. Speak in the FIRST PERSON (I, me, my) as if you ARE this person."; nl;
     "2. ONLY use the exact information provided in the context sections below."; nl;
     "3. DO NOT invent, add, or make up ANY details that aren't explicitly mentioned in the provided profile information."; nl;
     "4. If you don't have specific information to answer a question, say "; dq; "I prefer not to discuss that topic"; dq; " rather than making up a response."; nl;
     "5. Match the tone and style that would be natural for a professional with this background."; nl;
     "6. Never break character or refer to yourself as an AI."; nl;
     "7. Never apologize for "; dq; "not having information"; dq; " - instead, redirect to what you do know from the profile."; nl;
     "8. STICK STRICTLY to the information provided - do not elaborate with invented details."; nl;
     "9. Maintain consistency with previous responses in the conversation history."; nl;
     nl;
     "YOUR PROFILE INFORMATION:"; nl;
     profile_context; nl;
     nl;
     conversation_context; nl;
     nl;
     "RELEVANT PROFILE SECTIONS THAT MATCH THIS QUERY:"; nl;
     context; nl;
     nl;
     "Remember: You ARE this person, but you can ONLY respond with information that is explicitly mentioned in the above sections."; nl;
     "If asked about something not covered in the profile information, politely redirect or state you prefer to focus on the topics listed."; nl;
     "    "].

Definition api_error_apology : string :=
  "I'm sorry, I couldn't generate a response at the moment due to an API error. Please try again later.".
Definition connection_apology : string :=
  "I'm sorry, I couldn't connect to the response service. Please check your internet connection and try again.".
Definition rate_limit_apology : string :=
  "I'm sorry, the service is currently experiencing high demand. Please try again in a few moments.".
Definition generic_apology : string :=
  "I'm sorry, I couldn't generate a response at the moment. Please try again later.".

(** [except] clauses are tried in the order they are written; the first
    one whose class the exception derives from handles it. *)
Fixpoint first_handler {A} (clauses : list (exn_class * A)) (e : exn_class)
    : option A :=
  match clauses with
  | [] => None
  | (C, h) :: rest => if derives e C then Some h else first_handler rest e
  end.

Definition try_clauses {A} (body : result A) (clauses : list (exn_class * A))
    : result A :=
  match body with
  | Ok a => Ok a
  | Raise e =>
      match first_handler clauses e with
      | Some h => Ok h
      | None => Raise e
      end
  end.

(** The [try] block of lines 589-600:
    [response.choices[0].message.content]. *)
Definition request_completion `{Services} (prompt query : string)
    : result pyval :=
  response ← chat_completion prompt query;
  item (choices response) 0.

(** Lines 588-612. *)
Definition respond `{Services} (prompt query : string) : result pyval :=
  try_clauses (request_completion prompt query)
    [(APIError, PStr api_error_apology);
     (APIConnectionError, PStr connection_apology);
     (RateLimitError, PStr rate_limit_apology);
     (Exception, PStr generic_apology)].

(** The prompt [generate_ai_response] sends (lines 482-586). *)
Definition assemble_prompt `{Services} (search_results profile_data
    chat_history : pyval) : result string :=
  context ← build_context search_results;
  user_name ← resolve_user_name profile_data;
  profile_context ← build_profile_context profile_data;
  conversation_context ← build_conversation_context chat_history;
  Ok (system_prompt user_name profile_context conversation_context context).

Definition generate_ai_response `{Services} (query : string)
    (search_results profile_data chat_history : pyval) : result pyval :=
  prompt ← assemble_prompt search_results profile_data chat_history;
  respond prompt query.

(** The two calls of the chat route ([routes/chatbot.py], lines 40 and
    56-60): the retriever's return value is passed on as [search_results]. *)
Definition chat_answer `{Services} (c : corpus) (message : string)
    (target_user_id profile_data : pyval) : result pyval :=
  search_results ← query_vector_db c message 3 target_user_id PNone true;
  generate_ai_response message (result_set_to_py search_results)
                       profile_data PNone.

(** ** Conversation ingestion

    [add_conversation_to_vector_db] (lines 306-353). The identifier drawn
    by [uuid.uuid4()] and the time read by [time.strftime] are arguments:
    [uuid4] and [now] are the strings the two calls return. *)

Definition conversation_text `{Services} (message response : pyval) : string :=
  "User asked: " +:+ py_str message +:+ nl
  +:+ "You responded: " +:+ py_str response.

Definition conversation_metadata (visitor_id user_id : pyval) (now : string)
    : pydict :=
  [("category", PStr "conversation"); ("subcategory", PStr "exchange");
   ("visitor_id", visitor_id); ("timestamp", PStr now)]
  ++ (if truthy user_id then [("user_id", user_id)] else []).

Definition conversation_id `{Services} (uuid4 : string) (message_id : pyval)
    : string :=
  "conversation_" +:+ py_str (if truthy message_id then message_id
                              else PStr uuid4).

Definition add_conversation_to_vector_db `{Services} (uuid4 now : string)
    (message response visitor_id message_id user_id : pyval)
    : state_m corpus bool :=
  st_try
    (_ ← st_lift get_or_create_collection;
     _ ← st_update
           (collection_add
              [PStr (conversation_text message response)]
              [conversation_metadata visitor_id user_id now]
              [conversation_id uuid4 message_id]);
     st_ret true)
    Exception (λ _, st_ret false).

(** ** The chat route

    [chat] of [routes/chatbot.py] (lines 11-108). The profile store and the
    transcript store are collaborators: [get_profile_data] is an oracle,
    and the rows handed to [log_chat_message] are collected in the order of
    the calls that succeed. The elapsed time the reply reports is the
    clock's, [elapsed_ms]. *)

Record chat_request : Type := ChatRequest {
  req_message : string;
  req_visitor_id : pyval;
  req_visitor_name : pyval;
  req_target_user_id : pyval
}.

Record log_row : Type := LogRow {
  log_message : string;
  log_sender : string;
  log_response : string;
  log_visitor_id : pyval;
  log_visitor_name : pyval;
  log_target_user_id : pyval
}.

Record chat_response : Type := ChatResponse {
  response : string;
  query_time_ms : Q
}.

(** What the route hands back: a reply, or [HTTPException] with a status. *)
Inductive route_outcome : Type :=
| Replied (r : chat_response)
| HTTPError (status : nat).

Class RouteServices : Type := {
  get_profile_data : pyval → result pyval;
  log_raises : list log_row → log_row → option exn_class;
  elapsed_ms : Q
}.

Definition blank_reply : string :=
  "I didn't receive a message. Could you please try again?".
Definition fallback_reply : string :=
  "I apologize, but I couldn't formulate a proper response. Could we try a different question?".
Definition error_reply : string :=
  "I'm sorry, I encountered an error processing your request. Please try again.".

Definition log_chat_message `{RouteServices} (row : log_row)
    : state_m (list log_row) unit :=
  st_update (λ rows,
    match log_raises rows row with
    | Some e => Raise e
    | None => Ok (rows ++ [row])
    end).

(** Lines 62-65: an empty or blank answer is replaced. *)
Definition checked_response (ai_response : pyval) : result string :=
  if negb (truthy ai_response) then Ok fallback_reply
  else
    stripped ← py_strip ai_response;
    if String.eqb stripped EmptyString then Ok fallback_reply
    else as_text ai_response.

Definition row_of (request : chat_request) (reply : string) : log_row :=
  LogRow (req_message request) "user" reply (req_visitor_id request)
         (req_visitor_name request) (req_target_user_id request).

(** The [try] block (lines 18-86). *)
Definition chat_body `{Services} `{RouteServices} (c : corpus)
    (request : chat_request) : state_m (list log_row) chat_response :=
  let message := req_message request in
  if String.eqb message EmptyString
     || String.eqb (strip message) EmptyString
  then st_ret (ChatResponse blank_reply 0)
  else
    search_results ←
      st_lift (query_vector_db c message 3 (req_target_user_id request)
                               PNone true);
    profile_data ← st_lift (get_profile_data (req_target_user_id request));
    _ ← st_lift (if truthy profile_data
                 then py_get profile_data "id" (PStr "None")
                 else Ok PNone);
    ai_response ←
      st_lift (generate_ai_response message (result_set_to_py search_results)
                                    profile_data PNone);
    ai_response ← st_lift (checked_response ai_response);
    _ ← log_chat_message (row_of request ai_response);
    st_ret (ChatResponse ai_response elapsed_ms).

(** The route with its handler (lines 88-108): the failure is logged with
    the error reply when the transcript store lets it, and answered with
    status 500. *)
Definition chat `{Services} `{RouteServices} (c : corpus)
    (request : chat_request) : state_m (list log_row) route_outcome :=
  st_try
    (r ← chat_body c request; st_ret (Replied r))
    Exception
    (λ _,
       _ ← st_try (log_chat_message (row_of request error_reply))
                  Exception (λ _, st_ret ());
       st_ret (HTTPError 500)).

(** ** The residual filter as the specification words it

    A merged result set is a list of (text, metadata, distance) triples; the
    filter keeps the triples whose metadata category is [conversation] or
    whose metadata [user_id] equals the owner. *)

Definition triple : Type := string * pydict * Q.

Definition owner_keeps (owner : pyval) (meta : pydict) : bool :=
  py_eq (dict_get meta "category" PNone) (PStr "conversation")
  || py_eq (dict_get meta "user_id" PNone) owner.

Definition spec_owner_filter (owner : pyval) (merged : list triple)
    : list triple :=
  filter (λ t, owner_keeps owner t.1.2) merged.

Definition zip3 (docs : list string) (metas : list pydict) (dists : list Q)
    : list triple :=
  zip (zip docs metas) dists.

Definition unzip3 (ts : list triple) : result_set :=
  ResultSet (ts.*1.*1) (ts.*1.*2) (ts.*2).

(** The three lists of a batched answer have one shape: as many rows, and
    row by row as many entries. *)
Definition aligned (qr : query_result) : Prop :=
  length <$> qr_metadatas qr = length <$> qr_documents qr
  ∧ length <$> qr_distances qr = length <$> qr_documents qr.

(** [doc], [meta] and [dist] sit at one index of the first rows of [qr]. *)
Definition at_index (qr : query_result) (j : nat) (t : triple) : Prop :=
  ∃ docs metas dists,
    qr_documents qr !! 0 = Some docs ∧ qr_metadatas qr !! 0 = Some metas
    ∧ qr_distances qr !! 0 = Some dists
    ∧ docs !! j = Some t.1.1 ∧ metas !! j = Some t.1.2 ∧ dists !! j = Some t.2.

(** The lists have one length and every index holds a triple of the rows
    [d], [m], [x]. *)
Definition drawn_from (d : list string) (m : list pydict) (x : list Q)
    (r : result_set) : Prop :=
  length (metadatas r) = length (documents r)
  ∧ length (distances r) = length (documents r)
  ∧ ∀ i doc meta dist,
      documents r !! i = Some doc → metadatas r !! i = Some meta →
      distances r !! i = Some dist →
      ∃ j, d !! j = Some doc ∧ m !! j = Some meta ∧ x !! j = Some dist.

(** What the retriever returns comes, index by index, from an answer of
    the store to one of its queries. *)
Definition well_formed `{Services} (c : corpus) (query : string)
    (r : result_set) : Prop :=
  length (metadatas r) = length (documents r)
  ∧ length (distances r) = length (documents r)
  ∧ ∀ i doc meta dist,
      documents r !! i = Some doc → metadatas r !! i = Some meta →
      distances r !! i = Some dist →
      ∃ n w qr j, collection_query c query n w = Ok qr
                  ∧ at_index qr j (doc, meta, dist).

(** The profile block in which each of the seven fields renders as
    [Not provided]. *)
Definition not_provided_block : string :=
  concat_all
    [nl;
     "NAME: Not provided"; nl;
     "LOCATION: Not provided"; nl;
     "BIO: Not provided"; nl;
     "SKILLS: Not provided"; nl;
     "EXPERIENCE: Not provided"; nl;
     "PROJECTS: Not provided"; nl;
     "INTERESTS: Not provided"; nl;
     "        "].

(** The relevant-context block as the specification words it: one line
    [<SUBCATEGORY>: <text>] per document, each followed by a blank line. *)
Definition context_lines (docs subcategories : list string) : string :=
  concat_all
    (zip_with (λ doc sub, upper sub +:+ ": " +:+ doc +:+ nl +:+ nl)
              docs subcategories).

(** A result set in the batched shape of the store's answers. *)
Definition batched (docs : list string) (metas : list pydict)
    (dists : pyval) : pyval :=
  PDict [("documents", PList [PList (PStr <$> docs)]);
         ("metadatas", PList [PList (PDict <$> metas)]);
         ("distances", dists)].

(** The prompt for empty search results, no profile and no history. *)
Definition bare_prompt : string :=
  system_prompt "the person" EmptyString EmptyString no_context.

Definition apologies : list string :=
  [api_error_apology; connection_apology; rate_limit_apology; generic_apology].

(** ** Shapes of what ingestion writes *)

(** The three lists run side by side and every metadata record satisfies
    [P]. *)
Definition entries_ok (P : pydict → Prop) (e : entries) : Prop :=
  length e.1.1 = length e.2 ∧ length e.1.2 = length e.2 ∧ Forall P e.1.2.

(** The tags of a project document: category [project], one of the four
    subcategories, a truthy project id and the caller's owner. *)
Definition project_tagged (user_id : pyval) (meta : pydict) : Prop :=
  dict_lookup "category" meta = Some (PStr "project")
  ∧ dict_lookup "user_id" meta = Some user_id
  ∧ (∃ sub, dict_lookup "subcategory" meta = Some (PStr sub)
            ∧ sub ∈ ["title"; "description"; "details"; "content"])
  ∧ ∃ project_id, dict_lookup "project_id" meta = Some project_id
                  ∧ truthy project_id = true.

(** The filter of the profile [delete] for an owner. *)
Definition profile_filter (owner : pyval) : where_clause :=
  WAnd [WEq "category" (PStr "profile"); WEq "user_id" owner].

(** The documents of the owner's profile that a collection holds are of
    the generation written for the fields of [p]: each is the document of
    a truthy field, under the id, text and metadata of that field. *)
Definition current_generation `{Services} (p : pydict) (owner : pyval)
    (c : corpus) : Prop :=
  ∀ id d, c !! id = Some d →
    where_matches (profile_filter owner) (doc_meta d) = true →
    ∃ f, f ∈ profile_fields ∧ truthy (dict_get p f PNone) = true
         ∧ id = f +:+ "_" +:+ py_str owner
         ∧ dict_get p f PNone = PStr (doc_text d)
         ∧ doc_meta d = [("category", PStr "profile"); ("subcategory", PStr f);
                         ("user_id", owner)].

(** The turns of the history block: a turn sent by the user shows its
    message, any other turn its response. *)
Definition history_turn `{Services} (msg : pydict) : string :=
  if py_eq (dict_get msg "sender" PNone) (PStr "user")
  then "Visitor: " +:+ py_str (dict_get msg "message" (PStr EmptyString)) +:+ nl
  else "You: " +:+ py_str (dict_get msg "response" (PStr EmptyString)) +:+ nl.

Definition history_block `{Services} (msgs : list pydict) : string :=
  match msgs with
  | [] => EmptyString
  | _ :: _ =>
      "PREVIOUS CONVERSATION:" +:+ nl
      +:+ concat_all (history_turn <$> msgs) +:+ nl
  end.

(** ** Sample services, collections and inputs for the examples *)

Definition bio_meta (owner : string) : pydict :=
  [("category", PStr "profile"); ("subcategory", PStr "bio");
   ("user_id", PStr owner)].

Definition chat_meta : pydict :=
  [("category", PStr "conversation"); ("subcategory", PStr "exchange");
   ("visitor_id", PStr "v1"); ("timestamp", PStr "2024-05-01 10:00:00")].

Definition title_meta (owner : string) : pydict :=
  [("category", PStr "project"); ("subcategory", PStr "title");
   ("project_id", PStr "p9"); ("project_category", PStr EmptyString);
   ("user_id", PStr owner)].

(** A project list with one titled project, and a profile that carries
    it. *)
Definition one_project : pyval :=
  PList [PDict [("id", PStr "p1"); ("title", PStr "Parser")]].

Definition ada_profile : pyval :=
  PDict [("name", PStr "Ada"); ("project_list", one_project)].

(** One answer for every query: the bio of owner [u1]. *)
Definition one_bio : query_result :=
  QueryResult [["I build compilers"]] [[bio_meta "u1"]] [[1 # 4]].

(** No call fails; the model answers [Hello]. *)
Definition steady_services : Services := {|
  repr_other := λ _, "<value>";
  json_loads := λ _, Raise JSONDecodeError;
  get_collection_raises := None;
  delete_raises := λ _ _, None;
  add_raises := λ _ _ _ _, None;
  count_raises := λ _, None;
  query_oracle := λ _ _ _ _, Ok one_bio;
  chat_completion := λ _ _, Ok (Completion [PStr "Hello"])
|}.

(** The same, but the filtered query of the conversation step fails. *)
Definition no_history_services : Services := {|
  repr_other := λ _, "<value>";
  json_loads := λ _, Raise JSONDecodeError;
  get_collection_raises := None;
  delete_raises := λ _ _, None;
  add_raises := λ _ _ _ _, None;
  count_raises := λ _, None;
  query_oracle := λ _ _ _ w,
    match w with
    | None => Ok one_bio
    | Some _ => Raise RuntimeError
    end;
  chat_completion := λ _ _, Ok (Completion [PStr "Hello"])
|}.

(** The store answers with one document and two metadata records. *)
Definition lopsided : query_result :=
  QueryResult [["I build compilers"]] [[bio_meta "u2"; bio_meta "u1"]]
              [[1 # 4]].

Definition lopsided_services : Services := {|
  repr_other := λ _, "<value>";
  json_loads := λ _, Raise JSONDecodeError;
  get_collection_raises := None;
  delete_raises := λ _ _, None;
  add_raises := λ _ _ _ _, None;
  count_raises := λ _, None;
  query_oracle := λ _ _ _ _, Ok lopsided;
  chat_completion := λ _ _, Ok (Completion [PStr "Hello"])
|}.

(** Services whose language model behaves as [model] says. *)
Definition services_with_model (model : result completion) : Services := {|
  repr_other := λ _, "<value>";
  json_loads := λ _, Raise JSONDecodeError;
  get_collection_raises := None;
  delete_raises := λ _ _, None;
  add_raises := λ _ _ _ _, None;
  count_raises := λ _, None;
  query_oracle := λ _ _ _ _, Ok one_bio;
  chat_completion := λ _ _, model
|}.

(** A collection holding the bio of [u1] and a project title of [u2]. *)
Definition two_owner_corpus : corpus :=
  {[ "bio_u1" := Document "I build compilers" (bio_meta "u1");
     "project_title_p9_u2" := Document "Bridge design" (title_meta "u2") ]}.

(** The merged result set of the specification's filter example: a
    document of [u2], a document of [u1], and a conversation exchange
    without [user_id]. *)
Definition three_results : query_result :=
  QueryResult [["theirs"; "mine"; "chat"]]
              [[bio_meta "u2"; bio_meta "u1"; chat_meta]]
              [[1 # 10; 2 # 10; 3 # 10]].

(** The retriever's return value for an empty result set, and the store's
    batched shape for two documents. *)
Definition no_results : pyval := result_set_to_py empty_results.

Definition batched_results : pyval :=
  PDict [("documents", PList [PList [PStr "Ada"; PStr "I build compilers"]]);
         ("metadatas",
          PList [PList [PDict [("category", PStr "profile");
                               ("subcategory", PStr "name");
                               ("user_id", PStr "u1")];
                        PDict (bio_meta "u1")]]);
         ("distances", PList [PList [PFloat (1 # 10); PFloat (1 # 4)]])].

(** A content text of 1801 characters and a project that carries it. *)
Definition long_text : string :=
  string_of_list_ascii (repeat "a"%char 1801).

Definition long_project : pydict :=
  [("id", PStr "p1"); ("content", PStr long_text)].

(** Route services with no stored profile, a transcript store that takes
    every row and a clock that measures 12 ms; a greeting, and a message
    of a space, a no-break space and a tab. *)
Definition quiet_route : RouteServices := {|
  get_profile_data := λ _, Ok PNone;
  log_raises := λ _ _, None;
  elapsed_ms := 12
|}.

Definition hello_request : chat_request :=
  ChatRequest "Hi" (PStr "v1") PNone PNone.

Definition blank_request : chat_request :=
  ChatRequest (" " +:+ nbsp +:+ String (ascii_of_nat 9) EmptyString)
              (PStr "v1") PNone PNone.

(** * Part II: properties *)

(** ** The chunker *)

Section ChunkerProperties.
Context {A : Type}.
Implicit Types (text : list A) (k n : nat).

Lemma range_go_spec fuel i stop step :
  0 < step → stop - i ≤ fuel →
  ∃ n, range_go fuel i stop step = (λ k, i + k * step) <$> seq 0 n
       ∧ ∀ k, k < n ↔ i + k * step < stop.
Proof.
  intros Hstep. revert i.
  induction fuel as [|fuel IH]; intros i Hfuel; simpl.
  - exists 0. split; [done|]. intros k. lia.
  - destruct (decide (i < stop)) as [Hlt|Hge].
    + destruct (IH (i + step)) as (n & Heq & Hn); [lia|].
      exists (S n). split.
      * rewrite Heq. simpl. f_equal; [lia|].
        rewrite <- fmap_S_seq, <- list_fmap_compose.
        apply list_fmap_ext. intros _ k _. simpl. lia.
      * intros [|k]; [lia|]. specialize (Hn k). simpl. lia.
    + exists 0. split; [done|]. intros k. lia.
Qed.

Lemma py_range_spec stop step :
  0 < step →
  ∃ n, py_range 0 stop step = (λ k, k * step) <$> seq 0 n
       ∧ ∀ k, k < n ↔ k * step < stop.
Proof.
  intros Hstep.
  destruct (range_go_spec (stop - 0) 0 stop step) as (n & Heq & Hn);
    [done|lia|].
  exists n. split; [exact Heq|]. intros k. apply (Hn k).
Qed.

Lemma py_slice_window text i size :
  py_slice text i (i + size) = take size (drop i text).
Proof. unfold py_slice. f_equal. lia. Qed.

Lemma py_slice_nonempty text i size :
  0 < size → i < length text → py_slice text i (i + size) ≠ [].
Proof.
  intros Hn Hi Hnil. apply (f_equal length) in Hnil.
  rewrite py_slice_window, length_take, length_drop in Hnil.
  simpl in Hnil. lia.
Qed.

Lemma foldl_chunk_step text size acc (l : list nat) :
  (∀ i, i ∈ l → i < length text) → 0 < size →
  foldl (chunk_step text size) acc l
  = acc ++ ((λ i, py_slice text i (i + size)) <$> l).
Proof.
  intros Hl Hsize. revert acc.
  induction l as [|i l IH]; intros acc; simpl.
  - by rewrite app_nil_r.
  - rewrite IH by (intros j Hj; apply Hl; by right).
    unfold chunk_step.
    pose proof (py_slice_nonempty text i size Hsize) as Hne.
    destruct (py_slice text i (i + size)) as [|c cs] eqn:Hc.
    + exfalso. apply Hne; [apply Hl; by left|done].
    + by rewrite <- app_assoc.
Qed.

Variables size overlap : nat.
Hypothesis overlap_lt_size : overlap < size.

Lemma chunk_windows_map text :
  ∃ n, chunk_windows size overlap text = window size overlap text <$> seq 0 n
       ∧ ∀ k, k < n ↔ k * (size - overlap) < length text.
Proof.
  unfold chunk_windows.
  destruct (py_range_spec (length text) (size - overlap)) as (n & Heq & Hn);
    [lia|].
  exists n. split; [|exact Hn].
  rewrite Heq, foldl_chunk_step; [|..|lia].
  - simpl. by rewrite <- list_fmap_compose.
  - intros i [k [-> Hk]]%list_elem_of_fmap.
    apply Hn. apply elem_of_seq in Hk. lia.
Qed.

Lemma chunk_windows_lookup text k :
  chunk_windows size overlap text !! k
  = if decide (k * (size - overlap) < length text)
    then Some (window size overlap text k) else None.
Proof.
  destruct (chunk_windows_map text) as (n & -> & Hn).
  rewrite list_lookup_fmap.
  destruct (decide (k * (size - overlap) < length text)) as [Hk|Hk].
  - rewrite lookup_seq_lt by (by apply Hn). done.
  - rewrite lookup_seq_ge; [done|]. specialize (Hn k). lia.
Qed.

Lemma chunk_windows_nonempty text c :
  c ∈ chunk_windows size overlap text → c ≠ [].
Proof.
  intros [k Hk]%list_elem_of_lookup. rewrite chunk_windows_lookup in Hk.
  case_decide; [|done]. injection Hk as <-.
  apply py_slice_nonempty; lia.
Qed.

Lemma concat_take_windows step text n :
  concat ((λ k, take step (drop (k * step) text)) <$> seq 0 n)
  = take (n * step) text.
Proof.
  induction n as [|n IH]; [done|].
  rewrite seq_S, fmap_app, concat_app, IH. simpl. rewrite app_nil_r.
  rewrite take_take_drop. f_equal. lia.
Qed.

Lemma chunk_windows_concat text :
  concat (take (size - overlap) <$> chunk_windows size overlap text) = text.
Proof.
  destruct (chunk_windows_map text) as (n & -> & Hn).
  rewrite <- list_fmap_compose.
  erewrite list_fmap_ext; [rewrite (concat_take_windows (size - overlap))|].
  - apply take_ge. specialize (Hn n). lia.
  - intros _ k _. simpl. unfold window.
    rewrite py_slice_window, take_take. f_equal. lia.
Qed.

Lemma chunk_windows_overlap text k c1 c2 :
  chunk_windows size overlap text !! k = Some c1 →
  chunk_windows size overlap text !! S k = Some c2 →
  drop (size - overlap) c1 = take overlap c2.
Proof.
  rewrite !chunk_windows_lookup. intros H1 H2.
  repeat case_decide; try done.
  injection H1 as <-. injection H2 as <-.
  unfold window. rewrite !py_slice_window, take_take.
  replace (overlap `min` size) with overlap by lia.
  replace size with ((size - overlap) + overlap) at 2 by lia.
  rewrite <- take_drop_commute, drop_drop. do 2 f_equal. lia.
Qed.

Lemma chunk_windows_overlap_length text k c1 :
  overlap ≤ size - overlap →
  chunk_windows size overlap text !! k = Some c1 →
  S (S k) < length (chunk_windows size overlap text) →
  length (drop (size - overlap) c1) = overlap.
Proof.
  intros Hov H1 Hlen.
  destruct (lookup_lt_is_Some_2 _ _ Hlen) as [c3 H3].
  rewrite chunk_windows_lookup in H1, H3.
  repeat case_decide; try done.
  injection H1 as <-. unfold window.
  rewrite py_slice_window, length_drop, length_take, length_drop.
  simpl in *. lia.
Qed.

End ChunkerProperties.

(** The loop at a small scale: windows of 5 that advance by 3. *)
Example chunk_windows_small :
  chunk_windows 5 2 (seq 1 12)
  = [[1; 2; 3; 4; 5]; [4; 5; 6; 7; 8]; [7; 8; 9; 10; 11]; [10; 11; 12]].
Proof. reflexivity. Qed.

(** C5. A text longer than 1000 characters is cut into the windows
    [text[i:i+1000]] that start at 0, 900, 1800, ... below its length; none
    is empty; the first 900 characters of the chunks, concatenated in
    order, are the text; the last 100 characters of a chunk are the first
    100 of the next one, and they are exactly 100 for every pair of
    adjacent chunks except possibly the last pair. *)
Theorem chunk_content_windows {A} (text : list A) :
  1000 < length text →
  (∀ k, chunk_content text !! k
        = if decide (k * 900 < length text)
          then Some (py_slice text (k * 900) (k * 900 + 1000)) else None)
  ∧ (∀ c, c ∈ chunk_content text → c ≠ [])
  ∧ concat (take 900 <$> chunk_content text) = text
  ∧ (∀ k c1 c2,
       chunk_content text !! k = Some c1 →
       chunk_content text !! S k = Some c2 →
       drop 900 c1 = take 100 c2
       ∧ (S (S k) < length (chunk_content text) →
          length (drop 900 c1) = 100)).
Proof.
  intros _. unfold chunk_content.
  assert (Hlt : 100 < 1000) by lia.
  assert (Hstep : 1000 - 100 = 900) by reflexivity.
  split; [|split; [|split]].
  - intros k. rewrite (chunk_windows_lookup 1000 100 Hlt).
    unfold window. by rewrite Hstep.
  - intros c. by apply chunk_windows_nonempty.
  - rewrite <- Hstep at 1. by apply chunk_windows_concat.
  - intros k c1 c2 H1 H2. rewrite <- Hstep. split.
    + by apply (chunk_windows_overlap 1000 100 Hlt text k).
    + intros Hlen.
      apply (chunk_windows_overlap_length 1000 100 Hlt text k); [lia|done..].
Qed.

Lemma chunk_content_windows_witness :
  1000 < length (seq 0 1901)
  ∧ concat (take 900 <$> chunk_content (seq 0 1901)) = seq 0 1901.
Proof.
  assert (H : 1000 < length (seq 0 1901)) by (rewrite length_seq; lia).
  split; [exact H|].
  destruct (chunk_content_windows (seq 0 1901) H) as (_ & _ & Hc & _).
  exact Hc.
Defined.

(** ** The retriever *)

Lemma derives_Exception e : derives e Exception = true.
Proof. by destruct e. Qed.

Lemma item_lookup {A} (l : list A) i x : l !! i = Some x → item l i = Ok x.
Proof. unfold item. by intros ->. Qed.

Lemma unzip3_app ts us :
  unzip3 (ts ++ us)
  = ResultSet (documents (unzip3 ts) ++ documents (unzip3 us))
              (metadatas (unzip3 ts) ++ metadatas (unzip3 us))
              (distances (unzip3 ts) ++ distances (unzip3 us)).
Proof. unfold unzip3. simpl. by rewrite !fmap_app. Qed.

(** The loop, started at index [i] on what is left of the three lists,
    extends the accumulator by the kept triples. *)
Lemma filter_loop_spec owner docs dists :
  ∀ ms i acc ds xs,
    drop i docs = ds → drop i dists = xs →
    length ds = length ms → length xs = length ms →
    filter_loop owner docs dists acc (zip (seq i (length ms)) ms)
    = Ok (let kept := unzip3 (spec_owner_filter owner (zip3 ds ms xs)) in
          ResultSet (documents acc ++ documents kept)
                    (metadatas acc ++ metadatas kept)
                    (distances acc ++ distances kept)).
Proof.
  induction ms as [|m ms IH]; intros i acc ds xs Hds Hxs Hlds Hlxs.
  - destruct ds; [|done]. destruct xs; [|done]. simpl.
    rewrite !app_nil_r. by destruct acc.
  - destruct ds as [|d ds]; [done|]. destruct xs as [|x xs]; [done|].
    assert (Hd : docs !! i = Some d).
    { rewrite <- (Nat.add_0_r i), <- lookup_drop, Hds. done. }
    assert (Hx : dists !! i = Some x).
    { rewrite <- (Nat.add_0_r i), <- lookup_drop, Hxs. done. }
    assert (Hds' : drop (S i) docs = ds).
    { replace (S i) with (i + 1) by lia. by rewrite <- drop_drop, Hds. }
    assert (Hxs' : drop (S i) dists = xs).
    { replace (S i) with (i + 1) by lia. by rewrite <- drop_drop, Hxs. }
    simpl in Hlds, Hlxs.
    assert (Hstep : filter_step owner docs dists acc (i, m)
                    = Ok (if owner_keeps owner m
                          then push_result acc d m x else acc)).
    { unfold filter_step, owner_keeps.
      rewrite (item_lookup _ _ _ Hd), (item_lookup _ _ _ Hx). simpl.
      destruct (py_eq (dict_get m "category" PNone) (PStr "conversation"));
        [done|].
      by destruct (py_eq (dict_get m "user_id" PNone) owner). }
    cbn [length seq zip zip_with filter_loop]. rewrite Hstep.
    cbn [mbind result_bind].
    rewrite (IH (S i) _ ds xs) by (done || lia).
    f_equal. unfold spec_owner_filter, zip3. cbn [zip zip_with].
    destruct (owner_keeps owner m) eqn:Hk.
    + rewrite filter_cons_True by (simpl; by rewrite Hk).
      unfold push_result, unzip3. simpl.
      f_equal; rewrite <- app_assoc; reflexivity.
    + rewrite filter_cons_False by (simpl; rewrite Hk; exact id). done.
Qed.

Lemma owner_filter_spec owner docs metas dists :
  length docs = length metas → length dists = length metas →
  owner_filter owner docs metas dists
  = Ok (unzip3 (spec_owner_filter owner (zip3 docs metas dists))).
Proof.
  intros Hd Hx. unfold owner_filter, enumerate.
  rewrite (filter_loop_spec owner docs dists metas 0 empty_results docs dists)
    by done.
  unfold unzip3. reflexivity.
Qed.

(** C2. When an owner is given, the residual filter of [query_vector_db]
    returns the projections of one list: the merged (text, metadata,
    distance) triples whose metadata category is [conversation] or whose
    metadata [user_id] equals the owner, in their original order. *)
Theorem owner_filter_keeps_exactly (owner : pyval) (results : query_result)
    (docs : list string) (metas : list pydict) (dists : list Q) :
  truthy owner = true →
  qr_documents results !! 0 = Some docs →
  qr_metadatas results !! 0 = Some metas →
  qr_distances results !! 0 = Some dists →
  length docs = length metas → length dists = length metas →
  structure_results owner results
  = Ok (unzip3 (spec_owner_filter owner (zip3 docs metas dists))).
Proof.
  intros Howner Hd Hm Hx Hld Hlx. unfold structure_results, first_row.
  rewrite (item_lookup _ _ _ Hd), (item_lookup _ _ _ Hm),
    (item_lookup _ _ _ Hx).
  cbn [mbind result_bind]. rewrite Howner.
  by apply owner_filter_spec.
Qed.

(** The example of the specification: owner [u1], a document of [u2], a
    document of [u1] and a conversation exchange without [user_id]; two of
    the three are returned, in their order. *)
Lemma owner_filter_keeps_exactly_witness :
  structure_results (PStr "u1") three_results
  = Ok (ResultSet ["mine"; "chat"] [bio_meta "u1"; chat_meta]
                  [2 # 10; 3 # 10]).
Proof.
  apply (owner_filter_keeps_exactly (PStr "u1") three_results
           ["theirs"; "mine"; "chat"]
           [bio_meta "u2"; bio_meta "u1"; chat_meta]
           [1 # 10; 2 # 10; 3 # 10]); reflexivity.
Defined.

(** *** Merging the conversation history *)

Lemma aligned_rows qr :
  aligned qr →
  (qr_documents qr = [] ∧ qr_metadatas qr = [] ∧ qr_distances qr = [])
  ∨ ∃ d dr m mr x xr,
      qr = QueryResult (d :: dr) (m :: mr) (x :: xr)
      ∧ length m = length d ∧ length x = length d.
Proof.
  destruct qr as [[|d dr] [|m mr] [|x xr]]; intros [Hm Hx];
    simpl in *; try done; [by left|].
  right. exists d, dr, m, mr, x, xr. by simplify_eq.
Qed.

(** Without rows nothing can be appended: the step fails at once and
    changes nothing. *)
Lemma merge_one_no_rows conv i doc ms xs :
  merge_one conv i doc (QueryResult [] ms xs)
  = (QueryResult [] ms xs, Raise IndexError).
Proof. reflexivity. Qed.

Lemma merge_conversation_no_rows `{Services} c query visitor_id ms xs :
  merge_conversation c query visitor_id (QueryResult [] ms xs)
  = (QueryResult [] ms xs, Ok ()).
Proof.
  unfold merge_conversation, st_try, mbind, state_m_bind, st_bind, st_lift.
  destruct (collection_query c query 3 _) as [conv|e];
    [|by rewrite derives_Exception].
  destruct (first_row (qr_documents conv)) as [found|e];
    [|by rewrite derives_Exception].
  destruct found as [|doc found]; [done|]. done.
Qed.

(** With aligned rows on both sides every append succeeds; after the loop
    the first rows are the old ones followed by the conversation's. *)
Lemma merge_loop_spec conv d dr m mr x xr cd cdr cm cmr cx cxr :
  conv = QueryResult (cd :: cdr) (cm :: cmr) (cx :: cxr) →
  length cm = length cd → length cx = length cd →
  ∀ rest pre, cd = pre ++ rest →
    st_for (zip (seq (length pre) (length rest)) rest)
           (λ '(i, doc), merge_one conv i doc)
           (QueryResult ((d ++ pre) :: dr)
                        ((m ++ take (length pre) cm) :: mr)
                        ((x ++ take (length pre) cx) :: xr))
    = (QueryResult ((d ++ cd) :: dr) ((m ++ cm) :: mr) ((x ++ cx) :: xr),
       Ok ()).
Proof.
  intros -> Hm Hx. induction rest as [|doc rest IH]; intros pre Hcd.
  - rewrite app_nil_r in Hcd. subst pre. simpl.
    rewrite !take_ge by lia. done.
  - assert (Hlen : length pre < length cd).
    { rewrite Hcd, length_app. simpl. lia. }
    destruct (lookup_lt_is_Some_2 cm (length pre)) as [mi Hmi]; [lia|].
    destruct (lookup_lt_is_Some_2 cx (length pre)) as [xi Hxi]; [lia|].
    specialize (IH (pre ++ [doc])).
    rewrite length_app in IH. simpl in IH.
    rewrite Nat.add_1_r in IH.
    rewrite (take_S_r _ _ _ Hmi), (take_S_r _ _ _ Hxi) in IH.
    rewrite <- !app_assoc in IH.
    cbn [length seq zip zip_with st_for].
    unfold mbind at 1, state_m_bind, st_bind.
    assert (Hone : ∀ a b c,
      merge_one (QueryResult (cd :: cdr) (cm :: cmr) (cx :: cxr))
                (length pre) doc (QueryResult (a :: dr) (b :: mr) (c :: xr))
      = (QueryResult ((a ++ [doc]) :: dr) ((b ++ [mi]) :: mr)
                     ((c ++ [xi]) :: xr), Ok ())).
    { intros a b c'. unfold merge_one, mbind, state_m_bind, st_bind, st_update.
      simpl. unfold item. rewrite Hmi, Hxi. done. }
    rewrite Hone. rewrite <- !app_assoc. apply IH.
    by rewrite Hcd.
Qed.

(** The state after the conversation step, for aligned answers: the first
    rows are extended by whole rows of the conversation answer, or left as
    they were. *)
Lemma merge_conversation_rows `{Services} c query visitor_id d dr m mr x xr :
  (∀ q n w qr, collection_query c q n w = Ok qr → aligned qr) →
  length m = length d → length x = length d →
  merge_conversation c query visitor_id
    (QueryResult (d :: dr) (m :: mr) (x :: xr))
  = (QueryResult (d :: dr) (m :: mr) (x :: xr), Ok ())
  ∨ ∃ conv cd cdr cm cmr cx cxr,
      collection_query c query 3 (Some (conversation_filter visitor_id))
      = Ok conv
      ∧ conv = QueryResult (cd :: cdr) (cm :: cmr) (cx :: cxr)
      ∧ length cm = length cd ∧ length cx = length cd
      ∧ merge_conversation c query visitor_id
          (QueryResult (d :: dr) (m :: mr) (x :: xr))
        = (QueryResult ((d ++ cd) :: dr) ((m ++ cm) :: mr) ((x ++ cx) :: xr),
           Ok ()).
Proof.
  intros Hsvc Hm Hx.
  unfold merge_conversation, st_try, mbind, state_m_bind, st_bind, st_lift.
  destruct (collection_query c query 3 _) as [conv|e] eqn:Hq;
    [|left; by rewrite derives_Exception].
  destruct (aligned_rows conv (Hsvc _ _ _ _ Hq))
    as [(Hd0 & _ & _)|(cd & cdr & cm & cmr & cx & cxr & -> & Hcm & Hcx)].
  - left. rewrite Hd0. reflexivity.
  - simpl. destruct cd as [|doc cd]; [by left|].
    right. exists (QueryResult ((doc :: cd) :: cdr) (cm :: cmr) (cx :: cxr)).
    exists (doc :: cd), cdr, cm, cmr, cx, cxr.
    split; [done|]. split; [done|]. split; [done|]. split; [done|].
    cbn [Nat.ltb Nat.leb length].
    pose proof (merge_loop_spec _ d dr m mr x xr (doc :: cd) cdr cm cmr cx cxr
                  eq_refl Hcm Hcx (doc :: cd) [] eq_refl) as Hloop.
    simpl in Hloop. rewrite !app_nil_r in Hloop.
    unfold enumerate. simpl. rewrite Hloop. done.
Qed.

(** *** Shape of the returned value *)

Lemma unzip3_drawn_from ts d m x :
  (∀ t, t ∈ ts → t ∈ zip3 d m x) → drawn_from d m x (unzip3 ts).
Proof.
  intros Hts. unfold drawn_from, unzip3. simpl.
  rewrite !length_fmap. split; [done|]. split; [done|].
  intros i doc meta dist. rewrite !list_lookup_fmap.
  intros (p & (t & Hi & ->)%fmap_Some & ->)%fmap_Some Hmeta Hdist.
  rewrite Hi in Hmeta, Hdist. destruct t as [[doc' meta'] dist'].
  simpl in Hmeta, Hdist. injection Hmeta as <-. injection Hdist as <-.
  simpl.
  assert (Hin : (doc', meta', dist') ∈ zip3 d m x).
  { apply Hts. by eapply list_elem_of_lookup_2. }
  apply list_elem_of_lookup in Hin as [j Hj]. exists j.
  unfold zip3 in Hj.
  apply lookup_zip_with_Some in Hj as ([doc2 meta2] & dist2 & [= -> -> ->] & Hj & Hx).
  apply lookup_zip_with_Some in Hj as (doc3 & meta3 & [= -> ->] & Hd & Hm).
  done.
Qed.

Lemma structure_results_rows user_id d dr m mr x xr :
  length m = length d → length x = length d →
  ∃ r, structure_results user_id (QueryResult (d :: dr) (m :: mr) (x :: xr))
       = Ok r ∧ drawn_from d m x r.
Proof.
  intros Hm Hx. unfold structure_results. simpl.
  destruct (truthy user_id).
  - rewrite owner_filter_spec by lia. eexists. split; [done|].
    apply unzip3_drawn_from. intros t Ht.
    unfold spec_owner_filter in Ht.
    by apply list_elem_of_filter in Ht as [_ Ht].
  - eexists. split; [done|]. unfold drawn_from. simpl.
    split; [done|]. split; [done|]. intros i doc meta dist ???. by exists i.
Qed.

Lemma structure_results_no_rows user_id ms xs :
  structure_results user_id (QueryResult [] ms xs) = Raise IndexError.
Proof. reflexivity. Qed.

Lemma drawn_from_empty d m x : drawn_from d m x empty_results.
Proof. unfold drawn_from. simpl. split; [done|]. split; [done|]. by intros i ????. Qed.

Lemma drawn_from_one `{Services} c query n w d dr m mr x xr r :
  collection_query c query n w = Ok (QueryResult (d :: dr) (m :: mr) (x :: xr)) →
  drawn_from d m x r → well_formed c query r.
Proof.
  intros Hq (Hm & Hx & Hidx). split; [done|]. split; [done|].
  intros i doc meta dist Hd Hme Hdi.
  destruct (Hidx i doc meta dist Hd Hme Hdi) as (j & ? & ? & ?).
  exists n, w, (QueryResult (d :: dr) (m :: mr) (x :: xr)), j.
  split; [done|]. exists d, m, x. done.
Qed.

Lemma drawn_from_two `{Services} c query n w n' w' d dr m mr x xr
    cd cdr cm cmr cx cxr r :
  collection_query c query n w = Ok (QueryResult (d :: dr) (m :: mr) (x :: xr)) →
  collection_query c query n' w'
  = Ok (QueryResult (cd :: cdr) (cm :: cmr) (cx :: cxr)) →
  length m = length d → length x = length d →
  drawn_from (d ++ cd) (m ++ cm) (x ++ cx) r → well_formed c query r.
Proof.
  intros Hq Hq' Hlm Hlx (Hm & Hx & Hidx). split; [done|]. split; [done|].
  intros i doc meta dist Hd Hme Hdi.
  destruct (Hidx i doc meta dist Hd Hme Hdi) as (j & Hjd & Hjm & Hjx).
  destruct (decide (j < length d)) as [Hlt|Hge].
  - rewrite lookup_app_l in Hjd by lia. rewrite lookup_app_l in Hjm by lia.
    rewrite lookup_app_l in Hjx by lia.
    exists n, w, (QueryResult (d :: dr) (m :: mr) (x :: xr)), j.
    split; [done|]. by exists d, m, x.
  - rewrite lookup_app_r in Hjd by lia. rewrite lookup_app_r in Hjm by lia.
    rewrite lookup_app_r in Hjx by lia.
    rewrite Hlm in Hjm. rewrite Hlx in Hjx.
    exists n', w', (QueryResult (cd :: cdr) (cm :: cmr) (cx :: cxr)),
      (j - length d).
    split; [done|]. by exists cd, cm, cx.
Qed.

Lemma well_formed_empty `{Services} c query : well_formed c query empty_results.
Proof. split; [done|]. split; [done|]. by intros i ????. Qed.

Lemma query_body_well_formed `{Services} c query n_results user_id visitor_id
    include_conversation :
  (∀ q n w qr, collection_query c q n w = Ok qr → aligned qr) →
  (∃ e, query_body c query n_results user_id visitor_id include_conversation
        = Raise e)
  ∨ ∃ r, query_body c query n_results user_id visitor_id include_conversation
         = Ok r ∧ well_formed c query r.
Proof.
  intros Hsvc. unfold query_body.
  destruct get_or_create_collection as [[]|e]; [|left; by exists e].
  destruct (collection_count c) as [count|e]; [|left; by exists e].
  cbn [mbind result_bind].
  destruct (count =? 0).
  { right. exists empty_results. split; [done|]. apply well_formed_empty. }
  destruct (collection_query c query n_results None) as [results|e] eqn:Hq;
    [|left; by exists e].
  cbn [mbind result_bind].
  destruct (aligned_rows results (Hsvc _ _ _ _ Hq))
    as [(Hd0 & Hm0 & Hx0)|(d & dr & m & mr & x & xr & -> & Hm & Hx)].
  - destruct results as [ds ms xs]. simpl in Hd0. subst ds.
    left. exists IndexError.
    destruct (truthy visitor_id && include_conversation); [|done].
    by rewrite merge_conversation_no_rows.
  - right.
    destruct (truthy visitor_id && include_conversation).
    + destruct (merge_conversation_rows c query visitor_id d dr m mr x xr
                  Hsvc Hm Hx)
        as [->|(conv & cd & cdr & cm & cmr & cx & cxr & Hq' & -> & Hcm & Hcx & ->)].
      * cbn [mbind result_bind].
        destruct (structure_results_rows user_id d dr m mr x xr Hm Hx)
          as (r & -> & Hr).
        exists r. split; [done|]. by eapply drawn_from_one.
      * cbn [mbind result_bind].
        destruct (structure_results_rows user_id (d ++ cd) dr (m ++ cm) mr
                    (x ++ cx) xr) as (r & -> & Hr);
          [rewrite !length_app; lia..|].
        exists r. split; [done|].
        exact (drawn_from_two c query _ _ _ _ d dr m mr x xr cd cdr cm cmr
                 cx cxr r Hq Hq' Hm Hx Hr).
    + destruct (structure_results_rows user_id d dr m mr x xr Hm Hx)
        as (r & -> & Hr).
      exists r. split; [done|]. by eapply drawn_from_one.
Qed.

(** C9. When the store answers with aligned lists, [query_vector_db]
    returns, on every path, a dict with exactly the keys [documents],
    [metadatas] and [distances], whose three lists have one length and hold
    at each index a document, a metadata and a distance the store returned
    together. *)
Theorem query_vector_db_well_formed `{Services} (c : corpus) (query : string)
    (n_results : nat) (user_id visitor_id : pyval)
    (include_conversation : bool) :
  (∀ q n w qr, collection_query c q n w = Ok qr → aligned qr) →
  ∃ r, query_vector_db c query n_results user_id visitor_id
         include_conversation = Ok r
       ∧ (∃ d, result_set_to_py r = PDict d
               ∧ d.*1 = ["documents"; "metadatas"; "distances"])
       ∧ well_formed c query r.
Proof.
  intros Hsvc. unfold query_vector_db, try_except.
  destruct (query_body_well_formed c query n_results user_id visitor_id
              include_conversation Hsvc) as [[e ->]|(r & -> & Hr)].
  - rewrite derives_Exception. exists empty_results.
    split; [done|]. split; [by eexists|]. apply well_formed_empty.
  - exists r. split; [done|]. split; [by eexists|]. done.
Qed.

Lemma query_vector_db_well_formed_witness :
  ∃ r, @query_vector_db steady_services two_owner_corpus "What do you build?"
         3 (PStr "u1") (PStr "v1") true = Ok r
       ∧ length (metadatas r) = length (documents r)
       ∧ length (distances r) = length (documents r).
Proof.
  destruct (@query_vector_db_well_formed steady_services two_owner_corpus
              "What do you build?" 3 (PStr "u1") (PStr "v1") true)
    as (r & Hr & _ & Hm & Hx & _).
  - intros q n w qr [= <-]. split; reflexivity.
  - exists r. exact (conj Hr (conj Hm Hx)).
Defined.

(** *** Failures *)

(** Closes a goal in which a handler for [Exception] met an exception. *)
Ltac caught := cbn [mbind result_bind]; rewrite ?derives_Exception; done.

Lemma merge_conversation_outcome `{Services} c query visitor_id results :
  (merge_conversation c query visitor_id results).2 = Ok ().
Proof.
  unfold merge_conversation, st_try.
  match goal with |- context [match ?b with _ => _ end] => destruct b as [s' [[]|e]] end;
    [done|]. by rewrite derives_Exception.
Qed.

Lemma merge_conversation_query_fails `{Services} c query visitor_id results e :
  collection_query c query 3 (Some (conversation_filter visitor_id)) = Raise e →
  merge_conversation c query visitor_id results = (results, Ok ()).
Proof.
  intros Hq.
  unfold merge_conversation, st_try, mbind, state_m_bind, st_bind, st_lift.
  rewrite Hq. by rewrite derives_Exception.
Qed.

(** The results the last stage works on: the first answer after the
    conversation step, when that step runs. *)
Lemma query_body_raises `{Services} c query n_results user_id visitor_id
    include_conversation e :
  query_body c query n_results user_id visitor_id include_conversation
  = Raise e →
  query_vector_db c query n_results user_id visitor_id include_conversation
  = Ok empty_results.
Proof.
  intros Hbody. unfold query_vector_db, try_except.
  by rewrite Hbody, derives_Exception.
Qed.

(** C7 (amended). [query_vector_db] never raises. A failure of the
    collection lookup, of the count, of the first query, or of the last
    stage (row extraction and owner filter) gives the empty result set. A
    failure of the conversation-history query is caught by the handler of
    that step: the call returns what it returns without the step. *)
Theorem query_vector_db_never_raises `{Services} (c : corpus) (query : string)
    (n_results : nat) (user_id visitor_id : pyval)
    (include_conversation : bool) :
  (∃ r, query_vector_db c query n_results user_id visitor_id
          include_conversation = Ok r)
  ∧ (∀ e, get_or_create_collection = Raise e
          ∨ collection_count c = Raise e
          ∨ collection_query c query n_results None = Raise e →
          query_vector_db c query n_results user_id visitor_id
            include_conversation = Ok empty_results)
  ∧ (∀ results e,
       collection_query c query n_results None = Ok results →
       structure_results user_id
         (if truthy visitor_id && include_conversation
          then (merge_conversation c query visitor_id results).1
          else results) = Raise e →
       query_vector_db c query n_results user_id visitor_id
         include_conversation = Ok empty_results)
  ∧ (∀ e,
       collection_query c query 3 (Some (conversation_filter visitor_id))
       = Raise e →
       query_vector_db c query n_results user_id visitor_id true
       = query_vector_db c query n_results user_id visitor_id false).
Proof.
  split; [|split; [|split]].
  - unfold query_vector_db, try_except.
    destruct (query_body _ _ _ _ _ _) as [r|e]; [by exists r|].
    rewrite derives_Exception. by exists empty_results.
  - intros e He. unfold query_vector_db, try_except, query_body.
    destruct get_or_create_collection as [[]|e1]; [|caught].
    destruct (collection_count c) as [count|e2]; [|caught].
    cbn [mbind result_bind]. destruct (count =? 0); [done|].
    destruct He as [He|[He|He]]; [done..|]. rewrite He. caught.
  - intros results e Hq Hlast.
    unfold query_vector_db, try_except, query_body.
    destruct get_or_create_collection as [[]|e1]; [|caught].
    destruct (collection_count c) as [count|e2]; [|caught].
    cbn [mbind result_bind]. destruct (count =? 0); [done|].
    rewrite Hq. cbn [mbind result_bind].
    destruct (truthy visitor_id && include_conversation).
    + pose proof (merge_conversation_outcome c query visitor_id results) as Hout.
      destruct (merge_conversation c query visitor_id results) as [merged out].
      simpl in Hout, Hlast. subst out. cbn [mbind result_bind].
      rewrite Hlast. caught.
    + rewrite Hlast. caught.
  - intros e Hq. unfold query_vector_db, query_body.
    rewrite andb_false_r.
    destruct get_or_create_collection as [[]|e1]; [|done].
    destruct (collection_count c) as [count|e2]; [|done].
    cbn [mbind result_bind]. destruct (count =? 0); [done|].
    destruct (collection_query c query n_results None) as [results|e3]; [|done].
    cbn [mbind result_bind].
    rewrite (merge_conversation_query_fails c query visitor_id results e Hq).
    by destruct (truthy visitor_id).
Qed.

(** The second query fails, the first one found a document: the document
    is returned. *)
Lemma conversation_failure_keeps_results :
  @collection_query no_history_services two_owner_corpus "What do you build?"
    3 (Some (conversation_filter (PStr "v1"))) = Raise RuntimeError
  ∧ @query_vector_db no_history_services two_owner_corpus "What do you build?"
      3 PNone (PStr "v1") true
    = Ok (ResultSet ["I build compilers"] [bio_meta "u1"] [1 # 4])
  ∧ @query_vector_db no_history_services two_owner_corpus "What do you build?"
      3 PNone (PStr "v1") true
    ≠ Ok empty_results.
Proof. split; [reflexivity|]. split; [vm_compute; reflexivity|]. vm_compute. discriminate. Qed.

(** The owner filter runs off the end of the documents: the failure is
    caught and the result set is empty. *)
Example owner_filter_failure_gives_empty :
  structure_results (PStr "u1") lopsided = Raise IndexError
  ∧ @query_vector_db lopsided_services two_owner_corpus "What do you build?"
      3 (PStr "u1") PNone true = Ok empty_results.
Proof. split; vm_compute; reflexivity. Qed.

Lemma query_vector_db_never_raises_witness :
  @query_vector_db no_history_services two_owner_corpus "What do you build?"
    3 PNone (PStr "v1") true
  = @query_vector_db no_history_services two_owner_corpus "What do you build?"
      3 PNone (PStr "v1") false.
Proof.
  destruct (@query_vector_db_never_raises no_history_services two_owner_corpus
              "What do you build?" 3 PNone (PStr "v1") true)
    as (_ & _ & _ & Hconv).
  apply (Hconv RuntimeError). reflexivity.
Defined.

(** ** The context assembler *)

(** *** Text *)

Lemma append_cons c s t : String c s +:+ t = String c (s +:+ t).
Proof. reflexivity. Qed.

Lemma append_assoc (a b c : string) : (a +:+ b) +:+ c = a +:+ b +:+ c.
Proof.
  induction a as [|ch a IH]; [done|]. by rewrite !append_cons, IH.
Qed.

Lemma append_empty_r (a : string) : a +:+ EmptyString = a.
Proof. induction a as [|ch a IH]; [done|]. by rewrite append_cons, IH. Qed.

(** *** The relevant-context block *)

(** On the dict [query_vector_db] returns, [search_results["documents"][0]]
    is the first document, not a list of documents, and
    [search_results["metadatas"][0]] is the first metadata dict: the loop
    runs over the characters of the first document and looks the integer
    [0] up in a dict keyed by strings. *)
Lemma build_context_on_retriever_output `{Services} (r : result_set)
    (doc : string) (docs : list string) (meta : pydict) (metas : list pydict) :
  documents r = doc :: docs → doc ≠ EmptyString → metadatas r = meta :: metas →
  build_context (result_set_to_py r) = Raise KeyError.
Proof.
  intros Hd Hdoc Hm. unfold build_context, has_results, result_set_to_py.
  rewrite Hd, Hm. destruct doc as [|ch doc]; [done|]. reflexivity.
Qed.

Lemma build_context_no_results `{Services} :
  build_context no_results = Ok no_context.
Proof. reflexivity. Qed.

(** C1. The chat route on a collection where the retriever finds one
    document: the retriever returns the document, and rendering it raises
    [KeyError] instead of producing the line [BIO: I build compilers]. *)
Theorem chat_answer_raises_on_retrieved_document :
  @query_vector_db steady_services two_owner_corpus "What do you build?" 3
    (PStr "u1") PNone true
  = Ok (ResultSet ["I build compilers"] [bio_meta "u1"] [1 # 4])
  ∧ @build_context steady_services
      (result_set_to_py
         (ResultSet ["I build compilers"] [bio_meta "u1"] [1 # 4]))
    = Raise KeyError
  ∧ @chat_answer steady_services two_owner_corpus "What do you build?"
      (PStr "u1") PNone
    = Raise KeyError.
Proof. split; [|split]; vm_compute; reflexivity. Qed.

(** On the batched shape of the store's own answers the block is rendered
    line by line. *)
Example build_context_batched :
  @build_context steady_services batched_results
  = Ok ("NAME: Ada" +:+ nl +:+ nl +:+ "BIO: I build compilers" +:+ nl +:+ nl).
Proof. vm_compute. reflexivity. Qed.

Lemma batched_documents docs metas dists :
  py_getitem_str (batched docs metas dists) "documents"
  = Ok (PList [PList (PStr <$> docs)]).
Proof. reflexivity. Qed.

Lemma batched_metadatas docs metas dists :
  py_getitem_str (batched docs metas dists) "metadatas"
  = Ok (PList [PList (PDict <$> metas)]).
Proof. reflexivity. Qed.

(** On the batched shape the loop, started at index [i], adds one line per
    document that is left. *)
Lemma context_loop_batched `{Services} docs metas dists :
  ∀ rest i acc ms subs,
    drop i metas = ms → length rest = length ms →
    Forall2 (λ m sub, dict_lookup "subcategory" m = Some (PStr sub)) ms subs →
    context_loop (batched docs metas dists) acc
                 (zip (seq i (length rest)) (PStr <$> rest))
    = Ok (acc +:+ context_lines rest subs).
Proof.
  induction rest as [|doc rest IH]; intros i acc ms subs Hms Hlen Hsubs.
  - simpl. unfold context_lines. destruct subs; simpl;
      by rewrite append_empty_r.
  - destruct ms as [|m ms]; [done|].
    destruct subs as [|sub subs]; [by apply Forall2_length in Hsubs|].
    apply Forall2_cons in Hsubs as [Hsub Hsubs].
    assert (Hm : metas !! i = Some m).
    { rewrite <- (Nat.add_0_r i), <- lookup_drop, Hms. done. }
    assert (Hms' : drop (S i) metas = ms).
    { replace (S i) with (i + 1) by lia. by rewrite <- drop_drop, Hms. }
    cbn [length seq fmap list_fmap zip zip_with context_loop].
    assert (Hline : context_line (batched docs metas dists) acc (i, PStr doc)
                    = Ok (acc +:+ upper sub +:+ ": " +:+ doc +:+ nl +:+ nl)).
    { unfold context_line. rewrite batched_metadatas.
      cbn [mbind result_bind py_getitem_int lookup list_lookup].
      rewrite list_lookup_fmap, Hm. cbn [fmap option_fmap option_map].
      cbn [mbind result_bind py_getitem_str]. rewrite Hsub.
      reflexivity. }
    rewrite Hline. cbn [mbind result_bind].
    rewrite (IH (S i) _ ms subs) by (done || (simpl in Hlen; lia)).
    f_equal. unfold context_lines. cbn [zip_with concat_all foldr].
    by rewrite !append_assoc.
Qed.

(** On the batched shape every document is rendered as one line with its
    subcategory in upper case. *)
Lemma build_context_batched_spec `{Services} docs metas subs dists :
  docs ≠ [] → length docs = length metas →
  Forall2 (λ m sub, dict_lookup "subcategory" m = Some (PStr sub)) metas subs →
  build_context (batched docs metas dists) = Ok (context_lines docs subs).
Proof.
  intros Hdocs Hlen Hsubs. unfold build_context, has_results.
  destruct docs as [|doc docs]; [done|].
  rewrite batched_documents.
  cbn [mbind result_bind truthy negb length Nat.ltb Nat.leb py_len
       py_getitem_int lookup list_lookup fmap list_fmap py_iter].
  unfold enumerate. cbn [length]. rewrite length_fmap.
  change (PStr doc :: (PStr <$> docs)) with (PStr <$> (doc :: docs)).
  change (S (length docs)) with (length (doc :: docs)).
  by rewrite (context_loop_batched (doc :: docs) metas dists (doc :: docs) 0
                EmptyString metas subs).
Qed.

(** *** Persona name *)

Lemma prefix_spec sub s :
  String.prefix sub s = true ↔ ∃ post, s = sub +:+ post.
Proof.
  revert s. induction sub as [|a sub IH]; intros s; simpl.
  - destruct s; split; eauto.
  - destruct s as [|b s]; simpl.
    + split; [done|]. intros [post Hpost]. by rewrite append_cons in Hpost.
    + destruct (ascii_dec a b) as [->|Hne].
      * rewrite IH. split; intros [post Hpost]; exists post;
          rewrite append_cons in *; congruence.
      * split; [done|]. intros [post Hpost].
        rewrite append_cons in Hpost. congruence.
Qed.

(** [contains] decides the substring relation. *)
Lemma contains_spec sub s :
  contains sub s = true ↔ ∃ pre post, s = pre +:+ sub +:+ post.
Proof.
  induction s as [|c s IH]; cbn [contains].
  - rewrite orb_false_r, prefix_spec. split.
    + intros [post Hpost]. by exists EmptyString, post.
    + intros (pre & post & Hs). destruct pre; [by exists post|done].
  - rewrite orb_true_iff, prefix_spec, IH. split.
    + intros [[post Hpost]|(pre & post & Hs)].
      * by exists EmptyString, post.
      * exists (String c pre), post. by rewrite append_cons, Hs.
    + intros (pre & post & Hs). destruct pre as [|c' pre].
      * left. by exists post.
      * right. exists pre, post. rewrite append_cons in Hs. congruence.
Qed.

Lemma strip_empty : strip EmptyString = EmptyString.
Proof. reflexivity. Qed.

Lemma dict_get_present (p : pydict) k v dflt :
  dict_lookup k p = Some v → dict_get p k dflt = v.
Proof. unfold dict_get. by intros ->. Qed.

Lemma dict_get_missing (p : pydict) k dflt :
  dict_lookup k p = None → dict_get p k dflt = dflt.
Proof. unfold dict_get. by intros ->. Qed.

Lemma dict_lookup_nonempty k (p : pydict) v :
  dict_lookup k p = Some v → truthy (PDict p) = true.
Proof. by destruct p. Qed.

Lemma resolve_user_name_prefers_name (p : pydict) (name : string) :
  dict_lookup "name" p = Some (PStr name) → strip name ≠ EmptyString →
  resolve_user_name (PDict p) = Ok (strip name).
Proof.
  intros Hname Hstrip. unfold resolve_user_name.
  rewrite (dict_lookup_nonempty _ _ _ Hname).
  unfold py_get. rewrite (dict_get_present _ _ _ _ Hname).
  cbn [mbind result_bind].
  assert (Htruthy : truthy (PStr name) = true).
  { destruct name; [done|reflexivity]. }
  rewrite Htruthy. cbn [py_strip mbind result_bind].
  assert (Hneq : String.eqb (strip name) EmptyString = false).
  { by apply String.eqb_neq. }
  rewrite Hneq. cbn [negb mbind result_bind].
  unfold str_or. by rewrite Hneq.
Qed.

Lemma resolve_user_name_without_pattern (p : pydict) (bio : string) :
  dict_lookup "name" p = None → dict_lookup "bio" p = Some (PStr bio) →
  (¬ ∃ pre post, bio = pre +:+ "I am " +:+ post) →
  resolve_user_name (PDict p) = Ok "the person".
Proof.
  intros Hname Hbio Hpat. unfold resolve_user_name.
  rewrite (dict_lookup_nonempty _ _ _ Hbio).
  unfold py_get.
  rewrite (dict_get_missing _ _ _ Hname), (dict_get_present _ _ _ _ Hbio).
  cbn [truthy mbind result_bind].
  destruct (String.eqb bio EmptyString); [reflexivity|].
  cbn [negb check_sliceable mbind result_bind].
  unfold name_from_bio. cbn [py_contains mbind result_bind].
  destruct (contains "I am " bio) eqn:Hc; [|reflexivity].
  apply contains_spec in Hc. done.
Qed.

(** C3. For the profile whose only field is the bio
    [I am Grace, a pioneer], name resolution gives [Grace,] and not the
    name [Grace]: the token after [I am ] is cut at the next space only
    (line 507), so the comma that follows the name stays in it, and the
    length test of line 508 lets it pass. *)
Theorem bio_name_keeps_comma :
  resolve_user_name (PDict [("bio", PStr "I am Grace, a pioneer")])
  = Ok "Grace,"
  ∧ resolve_user_name (PDict [("bio", PStr "I am Grace, a pioneer")])
    ≠ Ok "Grace".
Proof. split; [reflexivity|]. vm_compute. discriminate. Qed.

(** A token of one or two characters is not taken for a name, and a name
    of blanks is no name. *)
Example short_token_is_no_name :
  resolve_user_name (PDict [("bio", PStr "I am a developer")]) = Ok "the person"
  ∧ resolve_user_name (PDict [("name", PStr "   "); ("bio", PStr "I am Ada Lovelace")])
    = Ok "Ada".
Proof. split; reflexivity. Qed.

(** The padding [strip] removes from a name includes the no-break space,
    and a name of no-break spaces only is no name. *)
Example name_padding_is_trimmed :
  resolve_user_name (PDict [("name", PStr (nbsp +:+ "Ada Lovelace "))])
  = Ok "Ada Lovelace"
  ∧ resolve_user_name
      (PDict [("name", PStr (nbsp +:+ " " +:+ nbsp));
              ("bio", PStr "I am Ada Lovelace")])
    = Ok "Ada"
  ∧ resolve_user_name
      (PDict [("name", PStr "Ada Lovelace"); ("bio", PStr "Grace, a pioneer")])
    = Ok "Ada Lovelace"
  ∧ resolve_user_name (PDict [("bio", PStr "Grace, a pioneer")])
    = Ok "the person".
Proof. repeat split; reflexivity. Qed.

(** *** Absent inputs *)

Lemma resolve_user_name_absent profile_data :
  truthy profile_data = false → resolve_user_name profile_data = Ok "the person".
Proof. unfold resolve_user_name. by intros ->. Qed.

Lemma build_profile_context_absent `{Services} profile_data :
  truthy profile_data = false → build_profile_context profile_data = Ok EmptyString.
Proof. unfold build_profile_context. by intros ->. Qed.

Lemma build_profile_context_missing_fields `{Services} (p : pydict) :
  p ≠ [] → (∀ f, f ∈ profile_fields → dict_lookup f p = None) →
  build_profile_context (PDict p) = Ok not_provided_block.
Proof.
  intros Hp Hmissing. unfold build_profile_context.
  assert (Htruthy : truthy (PDict p) = true) by (by destruct p).
  rewrite Htruthy.
  rewrite !dict_get_missing by (apply Hmissing; unfold profile_fields; set_solver).
  reflexivity.
Qed.

(** C4 (amended). With empty search results and an absent (or empty)
    profile the prompt carries the no-information placeholder in the
    relevant-context block; the profile block is empty and the prompt holds
    no [Not provided]. The seven fields render as [Not provided] in the
    block of a profile that is present and lacks them. *)
Theorem absent_inputs_prompt `{Services} :
  (∀ profile_data, truthy profile_data = false →
     build_context no_results = Ok no_context
     ∧ build_profile_context profile_data = Ok EmptyString
     ∧ assemble_prompt no_results profile_data PNone = Ok bare_prompt)
  ∧ contains no_context bare_prompt = true
  ∧ contains "Not provided" bare_prompt = false
  ∧ (∀ p : pydict,
       p ≠ [] → (∀ f, f ∈ profile_fields → dict_lookup f p = None) →
       build_profile_context (PDict p) = Ok not_provided_block).
Proof.
  split; [|split; [|split]].
  - intros profile_data Habsent. split; [reflexivity|].
    split; [by apply build_profile_context_absent|].
    unfold assemble_prompt.
    rewrite build_context_no_results, (resolve_user_name_absent _ Habsent),
      (build_profile_context_absent _ Habsent).
    reflexivity.
  - vm_compute. reflexivity.
  - vm_compute. reflexivity.
  - exact build_profile_context_missing_fields.
Qed.

(** Without a profile the profile block is empty: no field renders as
    [Not provided]. *)
Lemma absent_profile_block_is_empty :
  @build_profile_context steady_services PNone = Ok EmptyString
  ∧ ∃ prompt,
      @assemble_prompt steady_services no_results PNone PNone = Ok prompt
      ∧ contains "Not provided" prompt = false.
Proof.
  split; [reflexivity|]. exists bare_prompt.
  split; vm_compute; reflexivity.
Qed.

Lemma absent_inputs_prompt_witness :
  @assemble_prompt steady_services no_results (PDict []) PNone = Ok bare_prompt
  ∧ @build_profile_context steady_services (PDict [("id", PInt 7)])
    = Ok not_provided_block.
Proof.
  destruct (@absent_inputs_prompt steady_services) as (Habsent & _ & _ & Hmiss).
  split.
  - apply (Habsent (PDict [])). reflexivity.
  - apply (Hmiss [("id", PInt 7)]); [discriminate|].
    intros f Hf. unfold profile_fields in Hf.
    repeat (apply elem_of_cons in Hf as [->|Hf]; [reflexivity|]).
    by apply elem_of_nil in Hf.
Defined.

(** ** The response generator *)

Lemma first_handler_apology e :
  ∃ s, first_handler
         [(APIError, PStr api_error_apology);
          (APIConnectionError, PStr connection_apology);
          (RateLimitError, PStr rate_limit_apology);
          (Exception, PStr generic_apology)] e = Some (PStr s)
       ∧ s ∈ apologies.
Proof.
  destruct e; eexists; (split; [reflexivity|]); unfold apologies; set_solver.
Qed.

Lemma apologies_nonempty s : s ∈ apologies → s ≠ EmptyString.
Proof.
  unfold apologies. intros Hs.
  repeat (apply elem_of_cons in Hs as [->|Hs]; [discriminate|]).
  by apply elem_of_nil in Hs.
Qed.

Lemma apologies_distinct : NoDup apologies.
Proof. apply (bool_decide_unpack _). vm_compute. exact I. Qed.

(** C8 (amended). Once the prompt is assembled, a failure of the
    language-model call never leaves [generate_ai_response]: the caller
    gets one of four fixed, pairwise distinct, non-empty apology strings;
    the API-error one for a plain [APIError], the generic one for a failure
    that is no [APIError]. A call that succeeds returns the content of the
    first choice as the service gave it. *)
Theorem generate_ai_response_failures `{Services} (query : string)
    (search_results profile_data chat_history : pyval) (prompt : string) :
  assemble_prompt search_results profile_data chat_history = Ok prompt →
  (∀ e, request_completion prompt query = Raise e →
     ∃ s, generate_ai_response query search_results profile_data chat_history
          = Ok (PStr s)
        ∧ s ∈ apologies ∧ s ≠ EmptyString)
  ∧ (request_completion prompt query = Raise APIError →
     generate_ai_response query search_results profile_data chat_history
     = Ok (PStr api_error_apology))
  ∧ (∀ e, request_completion prompt query = Raise e →
     derives e APIError = false →
     generate_ai_response query search_results profile_data chat_history
     = Ok (PStr generic_apology))
  ∧ (∀ v, request_completion prompt query = Ok v →
     generate_ai_response query search_results profile_data chat_history
     = Ok v)
  ∧ NoDup apologies.
Proof.
  intros Hprompt. unfold generate_ai_response, respond, try_clauses.
  rewrite Hprompt. cbn [mbind result_bind].
  split; [|split; [|split; [|split]]].
  - intros e ->. destruct (first_handler_apology e) as (s & -> & Hs).
    exists s. split; [done|]. split; [done|]. by apply apologies_nonempty.
  - by intros ->.
  - intros e -> He. destruct e; try discriminate He; reflexivity.
  - by intros v ->.
  - exact apologies_distinct.
Qed.

(** A rate-limit failure gets the API-error apology, not the rate-limit
    one; an empty answer of the model is returned as it is. *)
Lemma rate_limit_gets_api_apology :
  @generate_ai_response (services_with_model (Raise RateLimitError))
    "Hi" no_results PNone PNone = Ok (PStr api_error_apology)
  ∧ api_error_apology ≠ rate_limit_apology
  ∧ @generate_ai_response
      (services_with_model (Ok (Completion [PStr EmptyString])))
      "Hi" no_results PNone PNone = Ok (PStr EmptyString).
Proof. split; [|split]; vm_compute; [reflexivity|discriminate|reflexivity]. Qed.

Lemma generate_ai_response_failures_witness :
  @generate_ai_response (services_with_model (Raise RuntimeError))
    "Hi" no_results PNone PNone = Ok (PStr generic_apology).
Proof.
  destruct (@generate_ai_response_failures
              (services_with_model (Raise RuntimeError))
              "Hi" no_results PNone PNone bare_prompt)
    as (_ & _ & Hgeneric & _); [vm_compute; reflexivity|].
  apply (Hgeneric RuntimeError); reflexivity.
Defined.

(** ** Ingestion *)

Section Preservation.
Context {S : Type} (P : S → Prop).

Lemma preserves_ret {A} (a : A) : preserves P (st_ret a).
Proof. by intros s. Qed.

Lemma preserves_lift {A} (r : result A) : preserves P (st_lift r).
Proof. by intros s. Qed.

Lemma preserves_bind {A B} (m : state_m S A) (f : A → state_m S B) :
  preserves P m → (∀ a, preserves P (f a)) → preserves P (m ≫= f).
Proof.
  intros Hm Hf s Hs. unfold mbind, state_m_bind, st_bind.
  specialize (Hm s Hs). destruct (m s) as [s' [a|e]]; [|done].
  by apply Hf.
Qed.

Lemma preserves_bind_lift {A B} (r : result A) (f : A → state_m S B) :
  (∀ a, r = Ok a → preserves P (f a)) → preserves P (st_lift r ≫= f).
Proof.
  intros Hf s Hs. unfold mbind, state_m_bind, st_bind, st_lift.
  destruct r as [a|e]; [|done]. by apply Hf.
Qed.

Lemma preserves_try {A} (body : state_m S A) C (handler : exn_class → state_m S A) :
  preserves P body → (∀ e, preserves P (handler e)) →
  preserves P (st_try body C handler).
Proof.
  intros Hbody Hhandler s Hs. unfold st_try.
  specialize (Hbody s Hs). destruct (body s) as [s' [a|e]]; [done|].
  destruct (derives e C); [by apply Hhandler|done].
Qed.

Lemma preserves_update (f : S → result S) :
  (∀ s s', f s = Ok s' → P s → P s') → preserves P (st_update f).
Proof.
  intros Hf s Hs. unfold st_update.
  destruct (f s) as [s'|e] eqn:Hfs; [|done]. by eapply Hf.
Qed.

End Preservation.

(** A document stays where it is when the filter of a [delete] does not
    match it, and through every [add]. *)
Lemma collection_delete_keeps `{Services} w (c c' : corpus) id d :
  where_matches w (doc_meta d) = false →
  collection_delete w c = Ok c' → c !! id = Some d → c' !! id = Some d.
Proof.
  intros Hw. unfold collection_delete.
  destruct (raise_if _) as [[]|e]; [|done]. cbn [mbind result_bind].
  intros [= <-] Hc. by apply map_lookup_filter_Some_2.
Qed.

Lemma collection_add_keeps `{Services} documents metadatas ids
    (c c' : corpus) id d :
  collection_add documents metadatas ids c = Ok c' →
  c !! id = Some d → c' !! id = Some d.
Proof.
  unfold collection_add.
  destruct (raise_if _) as [[]|e]; [|done]. cbn [mbind result_bind].
  destruct (negb _); [done|]. destruct (negb _); [done|].
  destruct (as_texts documents) as [texts|e]; [|done].
  cbn [mbind result_bind]. intros [= <-] Hc.
  by apply lookup_union_Some_l.
Qed.

Lemma add_entries_keeps `{Services} e id d :
  preserves (λ c : corpus, c !! id = Some d) (add_entries e).
Proof.
  destruct e as [[documents metadatas] ids]. unfold add_entries.
  destruct documents; [apply preserves_ret|].
  apply preserves_update. intros c c'. apply collection_add_keeps.
Qed.

Lemma add_projects_nothing `{Services} projects_list user_id c :
  truthy projects_list = false →
  add_projects_to_vector_db projects_list user_id c = (c, Ok true).
Proof. unfold add_projects_to_vector_db. by intros ->. Qed.

Lemma profile_filter_skips_projects owner (d : document) :
  dict_lookup "category" (doc_meta d) = Some (PStr "project") →
  where_matches (WAnd [WEq "category" (PStr "profile"); WEq "user_id" owner])
                (doc_meta d) = false.
Proof. simpl. by intros ->. Qed.

(** C10. With an empty or missing project list
    [add_projects_to_vector_db] returns [True] and leaves the collection as
    it is; hence ingesting a profile whose [project_list] is empty or
    missing keeps every project document the collection held. *)
Theorem add_projects_nothing_to_add `{Services} (projects_list user_id : pyval)
    (c : corpus) :
  projects_list = PNone ∨ projects_list = PList [] →
  add_projects_to_vector_db projects_list user_id c = (c, Ok true)
  ∧ ∀ (profile : pydict) (owner : pyval) (id : string) (d : document),
      dict_get profile "project_list" (PList []) = projects_list →
      c !! id = Some d →
      dict_lookup "category" (doc_meta d) = Some (PStr "project") →
      (add_profile_to_vector_db (PDict profile) owner c).1 !! id = Some d.
Proof.
  intros Hlist.
  assert (Hfalsy : truthy projects_list = false) by (by destruct Hlist as [->| ->]).
  split; [by apply add_projects_nothing|].
  intros profile owner id d Hget Hc Hproject.
  revert c Hc.
  change (preserves (λ c : corpus, c !! id = Some d)
            (add_profile_to_vector_db (PDict profile) owner)).
  unfold add_profile_to_vector_db.
  apply preserves_try; [|intros; apply preserves_ret].
  apply preserves_bind; [apply preserves_lift|intros _].
  apply preserves_bind; [apply preserves_lift|intros given].
  apply preserves_bind.
  { apply preserves_try; [|intros; apply preserves_ret].
    apply preserves_update. intros c c'.
    apply collection_delete_keeps. by apply profile_filter_skips_projects. }
  intros _.
  apply preserves_bind; [apply preserves_lift|intros e].
  apply preserves_bind; [apply add_entries_keeps|intros _].
  apply preserves_bind_lift. intros project_list [= <-].
  rewrite Hget.
  apply preserves_bind; [|intros; apply preserves_ret].
  intros c Hc. by rewrite add_projects_nothing.
Qed.

Lemma add_projects_nothing_to_add_witness :
  (@add_profile_to_vector_db steady_services
     (PDict [("name", PStr "Ada"); ("project_list", PList [])]) (PStr "u2")
     two_owner_corpus).1 !! "project_title_p9_u2"
  = Some (Document "Bridge design" (title_meta "u2")).
Proof.
  destruct (@add_projects_nothing_to_add steady_services (PList []) (PStr "u2")
              two_owner_corpus) as [_ Hkeep]; [by right|].
  apply Hkeep; reflexivity.
Defined.

(** Whatever the owner, a project document is dropped by a project
    ingestion that reaches its [delete], unless the call writes its id
    again. *)
Lemma add_projects_drops_project_documents `{Services}
    (projects_list user_id : pyval) (c : corpus) (id : string) (d : document)
    (docs : list pyval) (metas : list pydict) (ids : list string) :
  truthy projects_list = true →
  get_collection_raises = None →
  delete_raises (WEq "category" (PStr "project")) c = None →
  c !! id = Some d →
  dict_lookup "category" (doc_meta d) = Some (PStr "project") →
  project_documents projects_list user_id = Ok (docs, metas, ids) →
  id ∉ ids →
  (add_projects_to_vector_db projects_list user_id c).1 !! id = None.
Proof.
  intros Htruthy Hget Hdel Hc Hproject Hdocs Hid.
  unfold add_projects_to_vector_db. rewrite Htruthy. cbn [negb].
  unfold st_try, mbind, state_m_bind, st_bind, st_lift, st_update,
    get_or_create_collection, collection_delete.
  rewrite Hget, Hdel, Hdocs. cbn [raise_if mbind result_bind].
  set (c1 := filter _ c).
  assert (Hc1 : c1 !! id = None).
  { apply map_lookup_filter_None_2. right. intros d' Hd'.
    rewrite Hc in Hd'. injection Hd' as <-. simpl. by rewrite Hproject. }
  unfold add_entries. destruct docs as [|doc docs]; [done|].
  unfold st_update, collection_add.
  destruct (raise_if _) as [[]|e];
    [|cbn [mbind result_bind]; by rewrite derives_Exception].
  cbn [mbind result_bind].
  destruct (negb (_ && _)); [done|].
  destruct (negb (bool_decide _)); [done|].
  destruct (as_texts _) as [texts|e];
    [|cbn [mbind result_bind]; by rewrite derives_Exception].
  cbn [mbind result_bind fst st_ret].
  apply lookup_union_None_2; [done|].
  apply not_elem_of_list_to_map_1. intros Hin. apply Hid.
  apply list_elem_of_fmap in Hin as ([id' doc'] & -> & Hin).
  by apply elem_of_zip_l in Hin.
Qed.

(** C6. Owner [u1] ingests one project into a collection that holds a
    project document of owner [u2]: the call succeeds and the document of
    [u2] is gone, directly and through profile ingestion. *)
Theorem add_projects_deletes_other_owners_documents :
  two_owner_corpus !! "project_title_p9_u2"
  = Some (Document "Bridge design" (title_meta "u2"))
  ∧ (@add_projects_to_vector_db steady_services one_project (PStr "u1")
       two_owner_corpus).2 = Ok true
  ∧ (@add_projects_to_vector_db steady_services one_project (PStr "u1")
       two_owner_corpus).1 !! "project_title_p9_u2" = None
  ∧ (@add_profile_to_vector_db steady_services ada_profile (PStr "u1")
       two_owner_corpus).2 = Ok true
  ∧ (@add_profile_to_vector_db steady_services ada_profile (PStr "u1")
       two_owner_corpus).1 !! "project_title_p9_u2" = None.
Proof. repeat split; vm_compute; reflexivity. Qed.

(** ** Ingestion: what is written and what is kept *)

Lemma length_append (a b : string) :
  String.length (a +:+ b) = String.length a + String.length b.
Proof. induction a as [|c a IH]; [done|]. rewrite append_cons. simpl. by rewrite IH. Qed.

Lemma append_inj_r (a b t : string) : a +:+ t = b +:+ t → a = b.
Proof.
  revert b. induction a as [|c a IH]; intros [|c' b] Heq.
  - done.
  - apply (f_equal String.length) in Heq.
    rewrite !length_append in Heq. simpl in Heq. lia.
  - apply (f_equal String.length) in Heq.
    rewrite !length_append in Heq. simpl in Heq. lia.
  - rewrite !append_cons in Heq. injection Heq as -> Heq.
    f_equal. by apply IH.
Qed.

Lemma append_inj_l (t a b : string) : t +:+ a = t +:+ b → a = b.
Proof.
  induction t as [|c t IH]; [done|]. rewrite !append_cons.
  intros [= Heq]. by apply IH.
Qed.

(** The documents, metadata records and ids that the seven blocks write
    for the fields [fs]. *)
Lemma foldl_profile_field_entry `{Services} (p : pydict) owner (fs : list string)
    docs metas ids :
  foldl (profile_field_entry p owner) (docs, metas, ids) fs
  = (docs ++ ((λ f, dict_get p f PNone)
              <$> filter (λ f, truthy (dict_get p f PNone)) fs),
     metas ++ ((λ f, [("category", PStr "profile"); ("subcategory", PStr f);
                      ("user_id", owner)])
               <$> filter (λ f, truthy (dict_get p f PNone)) fs),
     ids ++ ((λ f, f +:+ "_" +:+ py_str owner)
             <$> filter (λ f, truthy (dict_get p f PNone)) fs)).
Proof.
  revert docs metas ids. induction fs as [|f fs IH]; intros docs metas ids.
  - simpl. by rewrite !app_nil_r.
  - cbn [foldl]. unfold profile_field_entry at 2.
    destruct (truthy (dict_get p f PNone)) eqn:Hf.
    + cbn [append_entry]. rewrite IH.
      rewrite filter_cons_True by (by rewrite Hf).
      cbn [fmap list_fmap]. by rewrite <- !app_assoc.
    + rewrite IH. rewrite filter_cons_False by (rewrite Hf; exact id). done.
Qed.

Lemma profile_documents_fields `{Services} (p : pydict) (owner : pyval) :
  let fields := filter (λ f, truthy (dict_get p f PNone)) profile_fields in
  profile_documents (PDict p) owner
  = Ok ((λ f, dict_get p f PNone) <$> fields,
        (λ f, [("category", PStr "profile"); ("subcategory", PStr f);
               ("user_id", owner)]) <$> fields,
        (λ f, f +:+ "_" +:+ py_str owner) <$> fields).
Proof. unfold profile_documents. by rewrite foldl_profile_field_entry. Qed.

(** X1. Profile ingestion submits one document for each of the seven
    fields whose value is truthy, in the fixed order of the fields: the
    value as text, a metadata record with category [profile], the field as
    subcategory and the owner, and the id [<field>_<owner>]; the ids are
    pairwise distinct. *)
Theorem profile_documents_spec `{Services} (p : pydict) (owner : pyval) :
  let fields := filter (λ f, truthy (dict_get p f PNone)) profile_fields in
  profile_documents (PDict p) owner
  = Ok ((λ f, dict_get p f PNone) <$> fields,
        (λ f, [("category", PStr "profile"); ("subcategory", PStr f);
               ("user_id", owner)]) <$> fields,
        (λ f, f +:+ "_" +:+ py_str owner) <$> fields)
  ∧ NoDup ((λ f, f +:+ "_" +:+ py_str owner) <$> fields)
  ∧ length fields ≤ 7.
Proof.
  intros fields. split; [|split].
  - apply profile_documents_fields.
  - apply NoDup_fmap_2.
    + intros f g Hfg. by apply append_inj_r in Hfg.
    + apply NoDup_filter. unfold profile_fields.
      apply (bool_decide_unpack _). vm_compute. exact I.
  - unfold fields. etransitivity; [apply length_filter|]. done.
Qed.

Lemma add_projects_preserves `{Services} projects_list user_id id (d : document) :
  where_matches (WEq "category" (PStr "project")) (doc_meta d) = false →
  preserves (λ c : corpus, c !! id = Some d)
            (add_projects_to_vector_db projects_list user_id).
Proof.
  intros Hd. unfold add_projects_to_vector_db.
  destruct (negb (truthy projects_list)); [apply preserves_ret|].
  apply preserves_try; [|intros; apply preserves_ret].
  apply preserves_bind; [apply preserves_lift|intros _].
  apply preserves_bind.
  { apply preserves_try; [|intros; apply preserves_ret].
    apply preserves_update. intros c c'. by apply collection_delete_keeps. }
  intros _.
  apply preserves_bind; [apply preserves_lift|intros e].
  apply preserves_bind; [apply add_entries_keeps|intros; apply preserves_ret].
Qed.

Lemma add_profile_preserves `{Services} profile_data user_id id (d : document) :
  truthy user_id = true →
  where_matches (WAnd [WEq "category" (PStr "profile"); WEq "user_id" user_id])
                (doc_meta d) = false →
  where_matches (WEq "category" (PStr "project")) (doc_meta d) = false →
  preserves (λ c : corpus, c !! id = Some d)
            (add_profile_to_vector_db profile_data user_id).
Proof.
  intros Huser Hprofile Hproject. unfold add_profile_to_vector_db.
  rewrite Huser.
  apply preserves_try; [|intros; apply preserves_ret].
  apply preserves_bind; [apply preserves_lift|intros _].
  apply preserves_bind_lift. intros given [= <-]. rewrite Huser.
  apply preserves_bind.
  { apply preserves_try; [|intros; apply preserves_ret].
    apply preserves_update. intros c c'. by apply collection_delete_keeps. }
  intros _.
  apply preserves_bind; [apply preserves_lift|intros e].
  apply preserves_bind; [apply add_entries_keeps|intros _].
  apply preserves_bind; [apply preserves_lift|intros project_list].
  apply preserves_bind; [|intros; apply preserves_ret].
  by apply add_projects_preserves.
Qed.

(** X2. Project ingestion leaves every document whose category is not
    [project] where it is - the profile documents and the conversation
    exchanges of every owner - whether its store calls succeed or fail. *)
Theorem add_projects_keeps_other_categories `{Services}
    (projects_list user_id : pyval) (c : corpus) (id : string) (d : document) :
  c !! id = Some d →
  where_matches (WEq "category" (PStr "project")) (doc_meta d) = false →
  (add_projects_to_vector_db projects_list user_id c).1 !! id = Some d.
Proof. intros Hc Hd. by apply (add_projects_preserves _ _ id d Hd c). Qed.

Lemma add_projects_keeps_other_categories_witness :
  (@add_projects_to_vector_db steady_services one_project (PStr "u2")
     two_owner_corpus).1 !! "bio_u1"
  = Some (Document "I build compilers" (bio_meta "u1")).
Proof.
  apply (@add_projects_keeps_other_categories steady_services); reflexivity.
Defined.

(** X3. Profile ingestion for an owner leaves where it is every document
    that is neither a profile document of that owner nor a project
    document: the profile documents of other owners and every conversation
    exchange. *)
Theorem add_profile_keeps_other_owners `{Services}
    (profile_data user_id : pyval) (c : corpus) (id : string) (d : document) :
  truthy user_id = true →
  c !! id = Some d →
  where_matches (WAnd [WEq "category" (PStr "profile"); WEq "user_id" user_id])
                (doc_meta d) = false →
  where_matches (WEq "category" (PStr "project")) (doc_meta d) = false →
  (add_profile_to_vector_db profile_data user_id c).1 !! id = Some d.
Proof.
  intros Huser Hc Hprofile Hproject.
  by apply (add_profile_preserves _ _ id d Huser Hprofile Hproject c).
Qed.

Lemma add_profile_keeps_other_owners_witness :
  (@add_profile_to_vector_db steady_services ada_profile (PStr "u2")
     two_owner_corpus).1 !! "bio_u1"
  = Some (Document "I build compilers" (bio_meta "u1")).
Proof.
  apply (@add_profile_keeps_other_owners steady_services); reflexivity.
Defined.

(** X4. Without an owner argument the owner is the profile's [user_id],
    and without either it is the literal [default]: the call then does
    what the call with that owner does. *)
Theorem add_profile_effective_owner `{Services} (p : pydict) (user_id : pyval)
    (c : corpus) :
  truthy user_id = false →
  add_profile_to_vector_db (PDict p) user_id c
  = add_profile_to_vector_db (PDict p)
      (if truthy (dict_get p "user_id" PNone)
       then dict_get p "user_id" PNone else PStr "default") c.
Proof.
  intros Huser. unfold add_profile_to_vector_db. rewrite Huser.
  destruct (truthy (dict_get p "user_id" PNone)) eqn:Hp.
  - rewrite Hp. unfold py_get, st_try, mbind, state_m_bind, st_bind, st_lift.
    destruct get_or_create_collection as [[]|e]; [|done].
    cbn [mbind result_bind]. by rewrite Hp.
  - cbn [truthy String.eqb negb].
    unfold py_get, st_try, mbind, state_m_bind, st_bind, st_lift.
    destruct get_or_create_collection as [[]|e]; [|done].
    cbn [mbind result_bind]. by rewrite Hp.
Qed.

Lemma add_profile_effective_owner_witness :
  @add_profile_to_vector_db steady_services
    (PDict [("name", PStr "Ada")]) PNone two_owner_corpus
  = @add_profile_to_vector_db steady_services
      (PDict [("name", PStr "Ada")]) (PStr "default") two_owner_corpus.
Proof.
  apply (@add_profile_effective_owner steady_services [("name", PStr "Ada")]
           PNone two_owner_corpus).
  reflexivity.
Defined.

(** *** The tags of project documents *)

Lemma append_entry_ok P acc doc meta id :
  entries_ok P acc → P meta → entries_ok P (append_entry acc doc meta id).
Proof.
  destruct acc as [[docs metas] ids]. intros (Hd & Hm & HP) Hmeta.
  unfold entries_ok, append_entry. simpl in *.
  rewrite !length_app. simpl. split; [lia|]. split; [lia|].
  apply Forall_app. split; [done|]. by apply Forall_singleton.
Qed.

Lemma project_meta_tagged sub chunk_keys (project : pydict) project_id user_id :
  sub ∈ ["title"; "description"; "details"; "content"] →
  truthy project_id = true →
  chunk_keys = [] ∨ (∃ i n, chunk_keys = [("chunk_index", PInt i);
                                           ("total_chunks", PInt n)]) →
  project_tagged user_id (project_meta sub chunk_keys project project_id user_id).
Proof.
  intros Hsub Hid Hkeys. unfold project_tagged, project_meta.
  destruct Hkeys as [->|(i & n & ->)];
    (split; [reflexivity|]; split; [reflexivity|]; split;
     [by exists sub|by exists project_id]).
Qed.

Lemma project_field_entries_ok `{Services} (project : pydict) project_id user_id
    (fs : list string) acc :
  (∀ f, f ∈ fs → f ∈ ["title"; "description"; "details"; "content"]) →
  truthy project_id = true →
  entries_ok (project_tagged user_id) acc →
  entries_ok (project_tagged user_id)
             (foldl (project_field_entry project project_id user_id) acc fs).
Proof.
  intros Hfs Hid. revert acc. induction fs as [|f fs IH]; intros acc Hacc; [done|].
  cbn [foldl]. apply IH; [intros g Hg; apply Hfs; by right|].
  unfold project_field_entry.
  destruct (truthy (dict_get project f PNone)); [|done].
  apply append_entry_ok; [done|].
  apply project_meta_tagged; [apply Hfs; by left|done|by left].
Qed.

Lemma chunk_entries_ok `{Services} (project : pydict) project_id user_id total
    (chunks : list (nat * pyval)) acc :
  truthy project_id = true →
  entries_ok (project_tagged user_id) acc →
  entries_ok (project_tagged user_id)
             (foldl (chunk_entry project project_id user_id total) acc chunks).
Proof.
  intros Hid. revert acc.
  induction chunks as [|[i chunk] chunks IH]; intros acc Hacc; [done|].
  cbn [foldl]. apply IH. unfold chunk_entry.
  apply append_entry_ok; [done|].
  apply project_meta_tagged; [set_solver|done|right; eauto].
Qed.

Lemma content_entries_ok `{Services} (project : pydict) project_id user_id acc e :
  truthy project_id = true →
  entries_ok (project_tagged user_id) acc →
  content_entries project project_id user_id acc = Ok e →
  entries_ok (project_tagged user_id) e.
Proof.
  intros Hid Hacc. unfold content_entries.
  destruct (content_of project) as [content_text|err]; [|done].
  cbn [mbind result_bind].
  destruct (truthy content_text); [|by intros [= <-]].
  destruct (py_len content_text) as [n|err]; [|done].
  cbn [mbind result_bind]. destruct (1000 <? n).
  - destruct (chunk_value content_text) as [chunks|err]; [|done].
    cbn [mbind result_bind]. intros [= <-]. by apply chunk_entries_ok.
  - intros [= <-]. apply append_entry_ok; [done|].
    apply project_meta_tagged; [set_solver|done|by left].
Qed.

Lemma project_entry_ok `{Services} user_id acc project e :
  entries_ok (project_tagged user_id) acc →
  project_entry user_id acc project = Ok e →
  entries_ok (project_tagged user_id) e.
Proof.
  intros Hacc. unfold project_entry. destruct project as [| | | | |l|p]; try done.
  destruct (truthy (dict_get p "id" PNone)) eqn:Hid; cbn [negb].
  - apply content_entries_ok; [done|].
    apply project_field_entries_ok; [|done..].
    intros f Hf. apply list_elem_of_In in Hf. apply list_elem_of_In.
    simpl in *. tauto.
  - by intros [= <-].
Qed.

Lemma project_entries_ok `{Services} user_id (projects : list pyval) acc e :
  entries_ok (project_tagged user_id) acc →
  project_entries user_id acc projects = Ok e →
  entries_ok (project_tagged user_id) e.
Proof.
  revert acc. induction projects as [|project projects IH]; intros acc Hacc.
  - by intros [= <-].
  - cbn [project_entries].
    destruct (project_entry user_id acc project) as [acc'|err] eqn:Hentry;
      [|done].
    cbn [mbind result_bind]. apply IH. by eapply project_entry_ok.
Qed.

Lemma entries_ok_nil P : entries_ok P ([], [], []).
Proof. unfold entries_ok. simpl. by repeat split. Qed.

Lemma project_documents_ok `{Services} (projects_list user_id : pyval)
    (e : entries) :
  project_documents projects_list user_id = Ok e →
  entries_ok (project_tagged user_id) e.
Proof.
  unfold project_documents.
  destruct (py_iter projects_list) as [projects|err]; [|done].
  cbn [mbind result_bind].
  apply (project_entries_ok user_id projects ([], [], []) _ (entries_ok_nil _)).
Qed.

(** X5. Whatever the project list, the three lists project ingestion
    submits run side by side, and every metadata record carries category
    [project], one of the subcategories title, description, details and
    content, a truthy project id and the owner the caller gave. *)
Theorem project_documents_tagged `{Services} (projects_list user_id : pyval)
    (docs : list pyval) (metas : list pydict) (ids : list string) :
  project_documents projects_list user_id = Ok (docs, metas, ids) →
  length docs = length ids ∧ length metas = length ids
  ∧ Forall (project_tagged user_id) metas.
Proof.
  unfold project_documents.
  destruct (py_iter projects_list) as [projects|err]; [|done].
  cbn [mbind result_bind]. intros Hentries.
  by apply (project_entries_ok user_id projects ([], [], []) _
              (entries_ok_nil _)) in Hentries.
Qed.

Lemma project_documents_tagged_witness :
  Forall (project_tagged (PStr "u1"))
    [project_meta "title" [] [("id", PStr "p1"); ("title", PStr "Parser")]
       (PStr "p1") (PStr "u1")].
Proof.
  destruct (@project_documents_tagged steady_services one_project (PStr "u1")
              [PStr "Parser"]
              [project_meta "title" [] [("id", PStr "p1"); ("title", PStr "Parser")]
                 (PStr "p1") (PStr "u1")]
              ["project_title_p1_u1"]) as (_ & _ & Htagged); [reflexivity|].
  exact Htagged.
Defined.

(** *** Projects without an id *)

Lemma project_entries_app `{Services} user_id (ps qs : list pyval) acc :
  project_entries user_id acc (ps ++ qs)
  = acc' ← project_entries user_id acc ps; project_entries user_id acc' qs.
Proof.
  revert acc. induction ps as [|p ps IH]; intros acc; [done|].
  cbn [app project_entries].
  destruct (project_entry user_id acc p) as [acc'|err]; [|done].
  cbn [mbind result_bind]. apply IH.
Qed.

(** X6. A project whose [id] is missing or falsy is skipped: the documents,
    metadata and ids submitted for a list are those submitted for the list
    without it. *)
Theorem project_without_id_is_skipped `{Services} (before after : list pyval)
    (project : pydict) (user_id : pyval) :
  truthy (dict_get project "id" PNone) = false →
  project_documents (PList (before ++ PDict project :: after)) user_id
  = project_documents (PList (before ++ after)) user_id.
Proof.
  intros Hid. unfold project_documents. cbn [py_iter mbind result_bind].
  rewrite !project_entries_app.
  destruct (project_entries user_id ([], [], []) before) as [acc|err]; [|done].
  cbn [mbind result_bind project_entries]. unfold project_entry at 1.
  by rewrite Hid.
Qed.

Lemma project_without_id_is_skipped_witness :
  @project_documents steady_services
    (PList [PDict [("title", PStr "Untitled draft")];
            PDict [("id", PStr "p1"); ("title", PStr "Parser")]]) (PStr "u1")
  = @project_documents steady_services one_project (PStr "u1").
Proof.
  apply (@project_without_id_is_skipped steady_services []
           [PDict [("id", PStr "p1"); ("title", PStr "Parser")]]
           [("title", PStr "Untitled draft")] (PStr "u1")).
  reflexivity.
Defined.

(** *** Replace before insert *)

Lemma as_texts_spec (vs : list pyval) (ts : list string) :
  as_texts vs = Ok ts → vs = PStr <$> ts.
Proof.
  revert ts. induction vs as [|v vs IH]; intros ts.
  - by intros [= <-].
  - cbn [as_texts]. destruct v; try done. cbn [as_text mbind result_bind].
    destruct (as_texts vs) as [ts'|err]; [|done].
    cbn [mbind result_bind]. intros [= <-]. by rewrite (IH ts').
Qed.

Lemma collection_delete_lookup `{Services} w (c c' : corpus) id d :
  collection_delete w c = Ok c' → c' !! id = Some d →
  c !! id = Some d ∧ where_matches w (doc_meta d) = false.
Proof.
  unfold collection_delete.
  destruct (raise_if _) as [[]|e]; [|done]. cbn [mbind result_bind].
  intros [= <-] Hc. by apply map_lookup_filter_Some in Hc.
Qed.

(** A document found after an [add] was there before, or is one of the
    batch: text, metadata and id at one index of the three lists. *)
Lemma collection_add_lookup `{Services} documents metadatas ids
    (c c' : corpus) id d :
  collection_add documents metadatas ids c = Ok c' → c' !! id = Some d →
  c !! id = Some d
  ∨ ∃ i, ids !! i = Some id ∧ documents !! i = Some (PStr (doc_text d))
         ∧ metadatas !! i = Some (doc_meta d).
Proof.
  unfold collection_add.
  destruct (raise_if _) as [[]|e]; [|done]. cbn [mbind result_bind].
  destruct (negb _); [done|]. destruct (negb _); [done|].
  destruct (as_texts documents) as [texts|e] eqn:Htexts; [|done].
  cbn [mbind result_bind]. intros [= <-] Hc.
  apply lookup_union_Some_raw in Hc as [Hc|[_ Hnew]]; [by left|right].
  apply elem_of_list_to_map_2 in Hnew.
  apply list_elem_of_lookup in Hnew as [i Hi].
  apply lookup_zip_with_Some in Hi as (id' & d' & [= <- <-] & Hid & Hd).
  apply lookup_zip_with_Some in Hd as (text & meta & -> & Htext & Hmeta).
  exists i. split; [done|]. split; [|done].
  rewrite (as_texts_spec _ _ Htexts), list_lookup_fmap, Htext. done.
Qed.

(** A fresh id of the batch holds its document after the [add]. *)
Lemma collection_add_fresh `{Services} documents metadatas ids
    (c c' : corpus) i id text meta :
  collection_add documents metadatas ids c = Ok c' →
  ids !! i = Some id → documents !! i = Some (PStr text) →
  metadatas !! i = Some meta → c !! id = None →
  c' !! id = Some (Document text meta).
Proof.
  unfold collection_add.
  destruct (raise_if _) as [[]|e]; [|done]. cbn [mbind result_bind].
  destruct (negb _); [done|].
  destruct (negb (bool_decide (NoDup ids))) eqn:Hdup; [done|].
  destruct (as_texts documents) as [texts|e] eqn:Htexts; [|done].
  cbn [mbind result_bind]. intros [= <-] Hid Hdoc Hmeta Hc.
  apply negb_false_iff, bool_decide_eq_true in Hdup.
  rewrite lookup_union_r by done.
  apply elem_of_list_to_map_1.
  - assert (Hfst : (zip ids (zip_with Document texts metadatas)).*1
                   `sublist_of` ids).
    { clear. revert ids.
      generalize (zip_with Document texts metadatas) as ds.
      intros ds ids. revert ds. induction ids as [|x ids IH]; intros [|y ds];
        simpl; try done; [apply sublist_nil_l|].
      by apply sublist_skip. }
    by eapply sublist_NoDup.
  - apply list_elem_of_lookup. exists i.
    apply lookup_zip_with_Some. exists id, (Document text meta).
    split; [done|]. split; [done|].
    apply lookup_zip_with_Some. exists text, meta.
    split; [done|]. split; [|done].
    rewrite (as_texts_spec _ _ Htexts), list_lookup_fmap in Hdoc.
    destruct (texts !! i); by simplify_eq/=.
Qed.

(** Running a procedure that is known to end well. *)
Lemma st_bind_inv {S A B} (m : state_m S A) (f : A → state_m S B) s s' b :
  (m ≫= f) s = (s', Ok b) → ∃ a s1, m s = (s1, Ok a) ∧ f a s1 = (s', Ok b).
Proof.
  unfold mbind, state_m_bind, st_bind.
  destruct (m s) as [s1 [a|e]]; [|done]. intros Hf. by exists a, s1.
Qed.

Lemma st_lift_inv {S A} (r : result A) (s s' : S) a :
  st_lift r s = (s', Ok a) → s' = s ∧ r = Ok a.
Proof. unfold st_lift. by intros [= -> ->]. Qed.

Lemma st_update_inv {S} (f : S → result S) s s' u :
  st_update f s = (s', Ok u) → f s = Ok s'.
Proof. unfold st_update. destruct (f s); by intros [= ->]. Qed.

Lemma st_try_true_inv {S} (body : state_m S bool) C s s' :
  st_try body C (λ _, st_ret false) s = (s', Ok true) → body s = (s', Ok true).
Proof.
  unfold st_try. destruct (body s) as [s1 [b|e]]; [done|].
  by destruct (derives e C).
Qed.

Lemma add_entries_inv `{Services} docs metas ids (c c' : corpus) u :
  add_entries (docs, metas, ids) c = (c', Ok u) →
  (docs = [] ∧ c' = c) ∨ collection_add docs metas ids c = Ok c'.
Proof.
  unfold add_entries. destruct docs as [|doc docs].
  - intros [= <-]. by left.
  - intros Hadd. right. by apply st_update_inv in Hadd.
Qed.

Lemma st_try_ret_fst {S A} (body : state_m S A) C (x : A) s :
  (st_try body C (λ _, st_ret x) s).1 = (body s).1.
Proof.
  unfold st_try. destruct (body s) as [s1 [a|e]]; [done|].
  by destruct (derives e C).
Qed.

Lemma st_bind_run {S A B} (m : state_m S A) (f : A → state_m S B) s s1 a :
  m s = (s1, Ok a) → (m ≫= f) s = f a s1.
Proof. unfold mbind, state_m_bind, st_bind. by intros ->. Qed.

Lemma swallowed_delete_run `{Services} w (c : corpus) :
  delete_raises w c = None →
  st_try (st_update (collection_delete w)) Exception (λ _, st_ret ()) c
  = (filter (λ kv, where_matches w (doc_meta kv.2) = false) c, Ok ()).
Proof.
  intros Hdel. unfold st_try, st_update, collection_delete. by rewrite Hdel.
Qed.

Lemma project_tagged_not_profile user_id owner meta :
  project_tagged user_id meta → where_matches (profile_filter owner) meta = false.
Proof. intros (Hcat & _). simpl. by rewrite Hcat. Qed.

Lemma profile_meta_not_project f owner :
  where_matches (WEq "category" (PStr "project"))
    [("category", PStr "profile"); ("subcategory", PStr f); ("user_id", owner)]
  = false.
Proof. reflexivity. Qed.

Lemma add_profile_entries_current `{Services} (p : pydict) owner e :
  profile_documents (PDict p) owner = Ok e →
  preserves (current_generation p owner) (add_entries e).
Proof.
  intros He. pose proof (profile_documents_fields p owner) as Hspec.
  cbv zeta in Hspec.
  rewrite Hspec in He. injection He as <-.
  unfold add_entries.
  set (fields := filter (λ f, truthy (dict_get p f PNone)) profile_fields).
  destruct (_ <$> fields) as [|doc docs] eqn:Hdocs; [apply preserves_ret|].
  rewrite <- Hdocs. apply preserves_update. intros c c' Hadd Hc id d Hid Hmatch.
  destruct (collection_add_lookup _ _ _ _ _ _ _ Hadd Hid)
    as [Hold|(i & Hi & Hdoc & Hmeta)]; [by apply (Hc id d)|].
  rewrite list_lookup_fmap in Hi. rewrite list_lookup_fmap in Hdoc.
  rewrite list_lookup_fmap in Hmeta.
  destruct (fields !! i) as [f|] eqn:Hf; [|done].
  simpl in Hi, Hdoc, Hmeta.
  injection Hi as <-. injection Hdoc as Hdoc. injection Hmeta as Hmeta.
  assert (Hin : f ∈ fields) by (by eapply list_elem_of_lookup_2).
  apply list_elem_of_filter in Hin as [Htruthy Hin].
  exists f. split; [done|]. split; [by destruct (truthy _)|]. done.
Qed.

Lemma add_projects_current `{Services} (p : pydict) owner projects_list :
  preserves (current_generation p owner)
            (add_projects_to_vector_db projects_list owner).
Proof.
  unfold add_projects_to_vector_db.
  destruct (negb (truthy projects_list)); [apply preserves_ret|].
  apply preserves_try; [|intros; apply preserves_ret].
  apply preserves_bind; [apply preserves_lift|intros _].
  apply preserves_bind.
  { apply preserves_try; [|intros; apply preserves_ret].
    apply preserves_update. intros c c' Hdel Hc id d Hid Hmatch.
    apply (Hc id d); [|done].
    by destruct (collection_delete_lookup _ _ _ _ _ Hdel Hid). }
  intros _. apply preserves_bind_lift. intros [[docs metas] ids] He.
  apply preserves_bind; [|intros; apply preserves_ret].
  unfold add_entries. destruct docs as [|doc docs]; [apply preserves_ret|].
  apply preserves_update. intros c c' Hadd Hc id d Hid Hmatch.
  destruct (collection_add_lookup _ _ _ _ _ _ _ Hadd Hid)
    as [Hold|(i & Hi & Hdoc & Hmeta)]; [by apply (Hc id d)|].
  destruct (project_documents_ok _ _ _ He) as (_ & _ & Htagged).
  rewrite Forall_lookup in Htagged. specialize (Htagged i _ Hmeta).
  by rewrite (project_tagged_not_profile _ owner _ Htagged) in Hmatch.
Qed.

(** X7. Once the collection is reached and the owner's [delete] has gone
    through, no profile document of an earlier generation is left for that
    owner, however the rest of the ingestion ends: every document of the
    collection that carries category [profile] and the owner is the
    document of a truthy field of the profile just given, under the id
    [<field>_<owner>], with that field's text and metadata. *)
Theorem add_profile_leaves_no_stale_documents `{Services} (p : pydict)
    (user_id : pyval) (c : corpus) :
  truthy user_id = true →
  get_collection_raises = None →
  delete_raises (profile_filter user_id) c = None →
  current_generation p user_id (add_profile_to_vector_db (PDict p) user_id c).1.
Proof.
  intros Huser Hget Hdel. unfold add_profile_to_vector_db.
  rewrite st_try_ret_fst, Huser.
  unfold get_or_create_collection. rewrite Hget. cbn [raise_if].
  rewrite (st_bind_run _ _ c c ()) by reflexivity.
  rewrite (st_bind_run _ _ c c user_id) by reflexivity.
  cbv beta zeta. rewrite Huser.
  rewrite (st_bind_run _ _ _ _ _ (swallowed_delete_run _ c Hdel)).
  match goal with |- current_generation _ _ (?m ?c1).1 =>
    cut (preserves (current_generation p user_id) m);
      [intros Hrest; apply Hrest|] end.
  - intros id d Hid Hmatch.
    apply map_lookup_filter_Some in Hid as [_ Hno]. simpl in Hno.
    unfold profile_filter in Hmatch. simpl in Hmatch. congruence.
  - apply preserves_bind_lift. intros e He.
    apply preserves_bind; [by apply add_profile_entries_current|intros _].
    apply preserves_bind; [apply preserves_lift|intros project_list].
    apply preserves_bind; [|intros; apply preserves_ret].
    apply add_projects_current.
Qed.

Lemma add_profile_leaves_no_stale_documents_witness :
  @current_generation steady_services [("name", PStr "Ada")] (PStr "u1")
    (@add_profile_to_vector_db steady_services (PDict [("name", PStr "Ada")])
       (PStr "u1") two_owner_corpus).1.
Proof.
  apply (@add_profile_leaves_no_stale_documents steady_services); reflexivity.
Defined.

Lemma collection_add_texts `{Services} documents metadatas ids (c c' : corpus) :
  collection_add documents metadatas ids c = Ok c' →
  ∃ texts, documents = PStr <$> texts.
Proof.
  unfold collection_add.
  destruct (raise_if _) as [[]|e]; [|done]. cbn [mbind result_bind].
  destruct (negb _); [done|]. destruct (negb _); [done|].
  destruct (as_texts documents) as [texts|e] eqn:Htexts; [|done].
  intros _. exists texts. by apply as_texts_spec.
Qed.

(** X8. When profile ingestion returns [True] after its [delete] went
    through, every truthy field of the profile is in the collection under
    the id [<field>_<owner>] with the field's text and its metadata,
    provided the id was free or held by a profile document of that owner
    before the call. *)
Theorem add_profile_writes_fields `{Services} (p : pydict) (user_id : pyval)
    (c c' : corpus) (f : string) :
  truthy user_id = true →
  delete_raises (profile_filter user_id) c = None →
  add_profile_to_vector_db (PDict p) user_id c = (c', Ok true) →
  f ∈ profile_fields → truthy (dict_get p f PNone) = true →
  (∀ d0, c !! (f +:+ "_" +:+ py_str user_id) = Some d0 →
         where_matches (profile_filter user_id) (doc_meta d0) = true) →
  ∃ text, dict_get p f PNone = PStr text
          ∧ c' !! (f +:+ "_" +:+ py_str user_id)
            = Some (Document text
                      [("category", PStr "profile"); ("subcategory", PStr f);
                       ("user_id", user_id)]).
Proof.
  intros Huser Hdel Hrun Hf Htruthy Hfree.
  unfold add_profile_to_vector_db in Hrun. rewrite Huser in Hrun.
  apply st_try_true_inv in Hrun.
  apply st_bind_inv in Hrun as ([] & c0 & Hget & Hrun).
  apply st_lift_inv in Hget as [-> _].
  apply st_bind_inv in Hrun as (given & c0 & Hgiven & Hrun).
  apply st_lift_inv in Hgiven as [-> [= <-]].
  cbv beta zeta in Hrun. rewrite Huser in Hrun.
  apply st_bind_inv in Hrun as ([] & c1 & Hdelete & Hrun).
  rewrite (swallowed_delete_run
             (WAnd [WEq "category" (PStr "profile"); WEq "user_id" user_id])
             c Hdel) in Hdelete.
  injection Hdelete as <-.
  apply st_bind_inv in Hrun as (e & c0 & He & Hrun).
  apply st_lift_inv in He as [-> He].
  pose proof (profile_documents_fields p user_id) as Hspec.
  cbv zeta in Hspec.
  rewrite Hspec in He. injection He as <-.
  set (fields := filter (λ f, truthy (dict_get p f PNone)) profile_fields) in *.
  assert (Hin : f ∈ fields).
  { apply list_elem_of_filter. split; [by rewrite Htruthy|done]. }
  apply list_elem_of_lookup in Hin as [i Hi].
  apply st_bind_inv in Hrun as ([] & c2 & Hadd & Hrun).
  apply add_entries_inv in Hadd as [[Hnil _]|Hadd].
  { apply (f_equal length) in Hnil. rewrite length_fmap in Hnil.
    apply lookup_lt_Some in Hi. simpl in Hnil. lia. }
  destruct (collection_add_texts _ _ _ _ _ Hadd) as [texts Htexts].
  assert (Hdoc : ∃ text, dict_get p f PNone = PStr text) .
  { apply (f_equal (λ l, l !! i)) in Htexts.
    rewrite !list_lookup_fmap, Hi in Htexts. simpl in Htexts.
    destruct (texts !! i) as [text|]; [|done]. exists text.
    by injection Htexts. }
  destruct Hdoc as [text Hdoc]. exists text. split; [done|].
  apply st_bind_inv in Hrun as (project_list & c0 & Hpl & Hrun).
  apply st_lift_inv in Hpl as [-> _].
  apply st_bind_inv in Hrun as (b & c3 & Hprojects & Hrun).
  injection Hrun as <-.
  assert (Hc3 : c3 = (add_projects_to_vector_db project_list user_id c2).1)
    by (by rewrite Hprojects).
  rewrite Hc3. apply add_projects_preserves; [reflexivity|].
  eapply (collection_add_fresh _ _ _ _ _ i); [exact Hadd|..].
  - by rewrite list_lookup_fmap, Hi.
  - by rewrite list_lookup_fmap, Hi, <- Hdoc.
  - by rewrite list_lookup_fmap, Hi.
  - apply map_lookup_filter_None_2.
    destruct (c !! (f +:+ "_" +:+ py_str user_id)) as [d0|] eqn:Hd0;
      [right|by left].
    intros d1 [= <-] Hno. specialize (Hfree d0 eq_refl).
    unfold profile_filter in Hfree. simpl in Hfree, Hno. congruence.
Qed.

Lemma add_profile_writes_fields_witness :
  ∃ text, dict_get [("name", PStr "Ada")] "name" PNone = PStr text
    ∧ (@add_profile_to_vector_db steady_services (PDict [("name", PStr "Ada")])
         (PStr "u1") two_owner_corpus).1 !! "name_u1"
      = Some (Document text
                [("category", PStr "profile"); ("subcategory", PStr "name");
                 ("user_id", PStr "u1")]).
Proof.
  apply (@add_profile_writes_fields steady_services [("name", PStr "Ada")]
           (PStr "u1") two_owner_corpus _ "name");
    [reflexivity|reflexivity|vm_compute; reflexivity| |reflexivity|].
  - unfold profile_fields. by left.
  - intros d0. vm_compute. discriminate.
Defined.

(** *** Conversation exchanges *)

Lemma add_conversation_preserves `{Services} uuid4 now message response
    visitor_id message_id user_id id (d : document) :
  preserves (λ c : corpus, c !! id = Some d)
    (add_conversation_to_vector_db uuid4 now message response visitor_id
       message_id user_id).
Proof.
  unfold add_conversation_to_vector_db.
  apply preserves_try; [|intros; apply preserves_ret].
  apply preserves_bind; [apply preserves_lift|intros _].
  apply preserves_bind; [|intros; apply preserves_ret].
  apply preserves_update. intros c c'. apply collection_add_keeps.
Qed.

(** X9. Conversation ingestion never replaces or removes a document: what
    the collection held before the call it holds after it, whether the
    call succeeds or fails. *)
Theorem add_conversation_keeps_documents `{Services} (uuid4 now : string)
    (message response visitor_id message_id user_id : pyval) (c : corpus)
    (id : string) (d : document) :
  c !! id = Some d →
  (add_conversation_to_vector_db uuid4 now message response visitor_id
     message_id user_id c).1 !! id = Some d.
Proof. intros Hc. by apply (add_conversation_preserves _ _ _ _ _ _ _ id d c). Qed.

Lemma add_conversation_keeps_documents_witness :
  (@add_conversation_to_vector_db steady_services
     "0b6c1a52" "2024-05-01 10:00:00" (PStr "Hi") (PStr "Hello") (PStr "v1")
     PNone (PStr "u1") two_owner_corpus).1 !! "bio_u1"
  = Some (Document "I build compilers" (bio_meta "u1")).
Proof.
  apply (@add_conversation_keeps_documents steady_services). reflexivity.
Defined.

(** X10. When the collection is reached and the store accepts the batch,
    conversation ingestion returns [True] and adds exactly one document
    under a free id [conversation_<message_id>] (the drawn identifier when
    no message id is given): the two-line exchange, tagged category
    [conversation], subcategory [exchange], the visitor, the time, and the
    owner when one is given. When the collection cannot be reached or the
    store rejects the batch it returns [False] and the collection is as it
    was. *)
Theorem add_conversation_adds_one_document `{Services} (uuid4 now : string)
    (message response visitor_id message_id user_id : pyval) (c : corpus) :
  let id := conversation_id uuid4 message_id in
  let text := conversation_text message response in
  let meta := conversation_metadata visitor_id user_id now in
  (get_collection_raises = None → add_raises c [PStr text] [meta] [id] = None →
   c !! id = None →
   add_conversation_to_vector_db uuid4 now message response visitor_id
     message_id user_id c
   = (<[id := Document text meta]> c, Ok true))
  ∧ ((get_collection_raises ≠ None
      ∨ add_raises c [PStr text] [meta] [id] ≠ None) →
     add_conversation_to_vector_db uuid4 now message response visitor_id
       message_id user_id c
     = (c, Ok false)).
Proof.
  intros id text meta.
  unfold add_conversation_to_vector_db, st_try, mbind, state_m_bind, st_bind,
    st_lift, st_update, get_or_create_collection, collection_add.
  fold id text meta. split.
  - intros -> -> Hfree. cbn [raise_if mbind result_bind length Nat.eqb andb negb].
    rewrite bool_decide_eq_true_2 by apply NoDup_singleton.
    cbn [negb as_texts as_text mbind result_bind zip zip_with list_to_map foldr].
    rewrite insert_empty, <- insert_union_singleton_r by done. done.
  - intros Hfail. destruct get_collection_raises as [e|].
    + cbn [raise_if]. by rewrite derives_Exception.
    + destruct Hfail as [Hfail|Hfail]; [done|].
      destruct (add_raises c [PStr text] [meta] [id]) as [e|]; [|done].
      cbn [raise_if mbind result_bind]. by rewrite derives_Exception.
Qed.

(** X11. The exchange stored for a visitor is found and kept by the
    retriever and left alone by the other ingestion paths: its metadata
    matches the filter of the conversation query for that visitor, passes
    the owner filter of every owner, and matches neither the filter of a
    profile [delete] nor that of the project [delete]. *)
Theorem conversation_metadata_filters (visitor : string)
    (user_id owner : pyval) (now : string) :
  let meta := conversation_metadata (PStr visitor) user_id now in
  where_matches (conversation_filter (PStr visitor)) meta = true
  ∧ owner_keeps owner meta = true
  ∧ where_matches (profile_filter owner) meta = false
  ∧ where_matches (WEq "category" (PStr "project")) meta = false.
Proof.
  intros meta. unfold meta, conversation_metadata, conversation_filter.
  split; [|split; [|split]]; try reflexivity.
  simpl. by rewrite String.eqb_refl.
Qed.

(** *** Failures of ingestion *)

Lemma st_try_false_ok {S} (body : state_m S bool) (s : S) :
  ∃ s' b, st_try body Exception (λ _, st_ret false) s = (s', Ok b).
Proof.
  unfold st_try. destruct (body s) as [s' [b|e]]; [by exists s', b|].
  rewrite derives_Exception. by exists s', false.
Qed.

(** X12. No ingestion function raises: the profile, the project and the
    conversation ingestion each end with the collection in some state and
    [True] or [False], whatever the profile, the projects and the services
    are. *)
Theorem ingestion_never_raises `{Services} (uuid4 now : string)
    (profile_data projects_list user_id message response visitor_id
     message_id : pyval) (c : corpus) :
  (∃ c' b, add_profile_to_vector_db profile_data user_id c = (c', Ok b))
  ∧ (∃ c' b, add_projects_to_vector_db projects_list user_id c = (c', Ok b))
  ∧ (∃ c' b, add_conversation_to_vector_db uuid4 now message response
               visitor_id message_id user_id c = (c', Ok b)).
Proof.
  split; [|split].
  - apply st_try_false_ok.
  - unfold add_projects_to_vector_db.
    destruct (negb (truthy projects_list)); [by exists c, true|].
    apply st_try_false_ok.
  - apply st_try_false_ok.
Qed.

Lemma add_conversation_adds_one_document_witness :
  @add_conversation_to_vector_db steady_services
    "0b6c1a52" "2024-05-01 10:00:00" (PStr "Hi") (PStr "Hello") (PStr "v1")
    PNone PNone two_owner_corpus
  = (<["conversation_0b6c1a52" :=
         Document ("User asked: Hi" +:+ nl +:+ "You responded: Hello")
                  chat_meta]> two_owner_corpus, Ok true).
Proof.
  destruct (@add_conversation_adds_one_document steady_services
              "0b6c1a52" "2024-05-01 10:00:00" (PStr "Hi") (PStr "Hello")
              (PStr "v1") PNone PNone two_owner_corpus) as [Hadd _].
  apply Hadd; reflexivity.
Defined.

(** *** The text of a project's content *)

Lemma has_char_strip_tags_go c s b :
  has_char c s = false → c ≠ " "%char → has_char c (strip_tags_go s b) = false.
Proof.
  intros Hs Hc. revert b. induction s as [|c' s IH]; intros b; [done|].
  cbn [has_char] in Hs. apply orb_false_iff in Hs as [Hc' Hs].
  cbn [strip_tags_go]. destruct b.
  - destruct (Ascii.eqb c' ">"); [|by apply IH].
    cbn [has_char]. rewrite (IH Hs).
    apply orb_false_iff. split; [|done]. by apply Ascii.eqb_neq.
  - destruct (Ascii.eqb c' "<" && has_char ">" s); [by apply IH|].
    cbn [has_char]. by rewrite Hc', (IH Hs).
Qed.

(** After the substitution no tag is left: a [<] of the result has no [>]
    after it. *)
Lemma strip_tags_go_no_tag s :
  ∀ b pre post, strip_tags_go s b = pre +:+ "<" +:+ post →
                has_char ">" post = false.
Proof.
  induction s as [|c s IH]; intros b pre post Hs.
  - cbn [strip_tags_go] in Hs. destruct pre; discriminate Hs.
  - cbn [strip_tags_go] in Hs. destruct b.
    + destruct (Ascii.eqb c ">"); [|by eapply IH].
      destruct pre as [|c' pre]; [discriminate Hs|].
      rewrite append_cons in Hs. injection Hs as _ Hs. by eapply IH.
    + destruct (Ascii.eqb c "<" && has_char ">" s) eqn:Htag; [by eapply IH|].
      destruct pre as [|c' pre].
      * change (String c (strip_tags_go s false) = String "<" post) in Hs.
        injection Hs as Hc Hpost. subst c post.
        change (has_char ">" s = false) in Htag.
        by apply has_char_strip_tags_go.
      * rewrite append_cons in Hs. injection Hs as _ Hs. by eapply IH.
Qed.

(** X13. The text of a project's content is always obtained, never a
    failure: without a truthy [content] it is empty, whatever
    [content_html] holds; and when [content_html] is absent and the content
    does not parse as JSON (or is no string), it is the raw content. *)
Theorem content_of_falls_back `{Services} (project : pydict) :
  (∃ v, content_of project = Ok v)
  ∧ (truthy (dict_get project "content" PNone) = false →
     content_of project = Ok (PStr EmptyString))
  ∧ (∀ e, truthy (dict_get project "content" PNone) = true →
          truthy (dict_get project "content_html" PNone) = false →
          loads (dict_get project "content" PNone) = Raise e →
          content_of project = Ok (dict_get project "content" PNone)).
Proof.
  unfold content_of, try_except. split; [|split].
  - destruct (truthy (dict_get project "content" PNone)); [|by eexists].
    match goal with |- ∃ v, match ?b with _ => _ end = _ =>
      destruct b as [v|e] end; [by exists v|].
    rewrite derives_Exception. by eexists.
  - by intros ->.
  - intros e -> -> ->. cbn [mbind result_bind]. by rewrite derives_Exception.
Qed.

Lemma content_of_falls_back_witness :
  @content_of steady_services [("id", PStr "p1")] = Ok (PStr EmptyString)
  ∧ @content_of steady_services [("content", PStr "plain text")]
    = Ok (PStr "plain text").
Proof.
  split.
  - exact (proj1 (proj2 (@content_of_falls_back steady_services
                           [("id", PStr "p1")])) eq_refl).
  - exact (proj2 (proj2 (@content_of_falls_back steady_services
                           [("content", PStr "plain text")]))
             JSONDecodeError eq_refl eq_refl eq_refl).
Defined.

(** X14. With a truthy [content], the indexed text is the HTML rendition
    with every tag replaced by a space: the string [content_html] when it
    is not empty, else the string under [html] of the parsed JSON payload
    when it is not empty; a payload without [html] gives the raw content.
    No tag is left in the stripped text: a [<] in it has no [>] after
    it. *)
Theorem content_of_html_rendition `{Services} (project : pydict) :
  truthy (dict_get project "content" PNone) = true →
  (∀ h, dict_get project "content_html" PNone = PStr h → h ≠ EmptyString →
        content_of project = Ok (PStr (strip_tags h)))
  ∧ (∀ d h, truthy (dict_get project "content_html" PNone) = false →
            loads (dict_get project "content" PNone) = Ok (PDict d) →
            dict_lookup "html" d = Some (PStr h) → h ≠ EmptyString →
            content_of project = Ok (PStr (strip_tags h)))
  ∧ (∀ d, truthy (dict_get project "content_html" PNone) = false →
          loads (dict_get project "content" PNone) = Ok (PDict d) →
          truthy (dict_get d "html" PNone) = false →
          content_of project = Ok (dict_get project "content" PNone))
  ∧ (∀ h pre post, strip_tags h = pre +:+ "<" +:+ post →
                   has_char ">" post = false).
Proof.
  intros Hcontent. unfold content_of, try_except. rewrite Hcontent.
  split; [|split; [|split]].
  - intros h -> Hh. cbn [truthy]. apply String.eqb_neq in Hh. by rewrite Hh.
  - intros d h -> -> Hhtml Hh. cbn [mbind result_bind py_get].
    rewrite (dict_get_present _ _ _ _ Hhtml). cbn [truthy].
    apply String.eqb_neq in Hh. rewrite Hh. cbn [negb py_getitem_str].
    by rewrite Hhtml.
  - intros d -> -> Hhtml. cbn [mbind result_bind py_get]. by rewrite Hhtml.
  - intros h. apply strip_tags_go_no_tag.
Qed.

Lemma content_of_html_rendition_witness :
  @content_of steady_services
    [("id", PStr "p1"); ("content", PStr "{}");
     ("content_html", PStr "<p>Hello <b>world</b></p>")]
  = Ok (PStr " Hello  world  ").
Proof.
  destruct (@content_of_html_rendition steady_services
              [("id", PStr "p1"); ("content", PStr "{}");
               ("content_html", PStr "<p>Hello <b>world</b></p>")] eq_refl)
    as [Hhtml _].
  apply (Hhtml "<p>Hello <b>world</b></p>"); [reflexivity|discriminate].
Defined.

(** *** Content documents *)

Lemma foldl_chunk_entry `{Services} (project : pydict) project_id user_id total
    (chunks : list pyval) :
  ∀ i docs metas ids,
    foldl (chunk_entry project project_id user_id total) (docs, metas, ids)
          (zip (seq i (length chunks)) chunks)
    = (docs ++ chunks,
       metas ++ ((λ k, project_meta "content"
                         [("chunk_index", PInt (Z.of_nat k));
                          ("total_chunks", PInt (Z.of_nat total))]
                         project project_id user_id)
                 <$> seq i (length chunks)),
       ids ++ ((λ k, "project_content_" +:+ py_str project_id +:+ "_"
                     +:+ pretty k +:+ "_" +:+ py_str user_id)
               <$> seq i (length chunks))).
Proof.
  induction chunks as [|chunk chunks IH]; intros i docs metas ids.
  - simpl. by rewrite !app_nil_r.
  - cbn [length seq zip zip_with foldl chunk_entry append_entry].
    rewrite IH. cbn [fmap list_fmap]. by rewrite <- !app_assoc.
Qed.

Lemma chunk_ids_distinct `{Services} (project_id user_id : pyval) (n : nat) :
  NoDup ((λ k, "project_content_" +:+ py_str project_id +:+ "_"
               +:+ pretty k +:+ "_" +:+ py_str user_id) <$> seq 0 n).
Proof.
  apply NoDup_fmap_2; [|apply NoDup_seq].
  intros j k Hjk.
  apply append_inj_l, append_inj_l, append_inj_l in Hjk.
  apply append_inj_r in Hjk. by apply (inj pretty) in Hjk.
Qed.

(** X15. A content text of more than 1000 characters is indexed as one
    document per chunk of the chunker, in order: chunk [k] under the id
    [project_content_<project_id>_<k>_<owner>] with [chunk_index] [k] and
    [total_chunks] the number of chunks. There are as many chunks as
    multiples of 900 below the length of the text, and their ids are
    pairwise distinct. *)
Theorem content_entries_chunked `{Services} (project : pydict)
    (project_id user_id : pyval) (s : string)
    (docs : list pyval) (metas : list pydict) (ids : list string) :
  content_of project = Ok (PStr s) → 1000 < String.length s →
  let chunks := chunk_content (list_ascii_of_string s) in
  let n := length chunks in
  let chunk_ids :=
    (λ k, "project_content_" +:+ py_str project_id +:+ "_" +:+ pretty k
          +:+ "_" +:+ py_str user_id) <$> seq 0 n in
  content_entries project project_id user_id (docs, metas, ids)
  = Ok (docs ++ (PStr ∘ string_of_list_ascii <$> chunks),
        metas ++ ((λ k, project_meta "content"
                          [("chunk_index", PInt (Z.of_nat k));
                           ("total_chunks", PInt (Z.of_nat n))]
                          project project_id user_id) <$> seq 0 n),
        ids ++ chunk_ids)
  ∧ NoDup chunk_ids
  ∧ ∀ k, k < n ↔ k * 900 < String.length s.
Proof.
  intros Hcontent Hlen chunks n chunk_ids. split; [|split].
  - unfold content_entries. rewrite Hcontent. cbn [mbind result_bind].
    assert (Htruthy : truthy (PStr s) = true).
    { destruct s; [simpl in Hlen; lia|reflexivity]. }
    rewrite Htruthy. cbn [py_len mbind result_bind].
    assert (Hlong : (1000 <? String.length s) = true) by (by apply Nat.ltb_lt).
    rewrite Hlong. cbn [chunk_value mbind result_bind]. fold chunks.
    unfold enumerate. rewrite foldl_chunk_entry, length_fmap. done.
  - apply chunk_ids_distinct.
  - intros k. unfold n, chunks, chunk_content.
    destruct (chunk_windows_map 1000 100 ltac:(lia) (list_ascii_of_string s))
      as (m & -> & Hm).
    rewrite length_fmap, length_seq, Hm.
    change (1000 - 100) with 900.
    assert (Hl : length (list_ascii_of_string s) = String.length s).
    { clear. induction s as [|c s IH]; [done|]. simpl. by rewrite IH. }
    by rewrite Hl.
Qed.

Lemma content_entries_chunked_witness :
  NoDup ((λ k, "project_content_p1_" +:+ pretty k +:+ "_u1")
         <$> seq 0 (length (chunk_content (list_ascii_of_string long_text)))).
Proof.
  assert (Hlen : 1000 < String.length long_text).
  { replace (String.length long_text) with 1801 by (vm_compute; reflexivity).
    lia. }
  destruct (@content_entries_chunked steady_services long_project
              (PStr "p1") (PStr "u1") long_text [] [] []
              ltac:(vm_compute; reflexivity) Hlen) as (_ & Hids & _).
  exact Hids.
Defined.

(** ** The retriever: paths and composition *)

(** X16. On an empty collection the retriever returns the empty result set,
    whatever the query, the owner, the visitor and the services are. *)
Theorem query_vector_db_empty_collection `{Services} (query : string)
    (n_results : nat) (user_id visitor_id : pyval)
    (include_conversation : bool) :
  query_vector_db ∅ query n_results user_id visitor_id include_conversation
  = Ok empty_results.
Proof.
  unfold query_vector_db, try_except, query_body, collection_count.
  destruct get_or_create_collection as [[]|e]; [|caught].
  cbn [mbind result_bind].
  destruct (raise_if (count_raises ∅)) as [[]|e]; [|caught].
  cbn [mbind result_bind]. by rewrite map_size_empty.
Qed.

Lemma merge_conversation_appended `{Services} c query visitor_id
    d dr m mr x xr cd cdr cm cmr cx cxr :
  collection_query c query 3 (Some (conversation_filter visitor_id))
  = Ok (QueryResult (cd :: cdr) (cm :: cmr) (cx :: cxr)) →
  length cm = length cd → length cx = length cd →
  merge_conversation c query visitor_id
    (QueryResult (d :: dr) (m :: mr) (x :: xr))
  = (QueryResult ((d ++ cd) :: dr) ((m ++ cm) :: mr) ((x ++ cx) :: xr), Ok ()).
Proof.
  intros Hq Hcm Hcx.
  unfold merge_conversation, st_try, mbind, state_m_bind, st_bind, st_lift.
  rewrite Hq. cbn [first_row item qr_documents lookup list_lookup].
  destruct cd as [|doc cd].
  - destruct cm; [|done]. destruct cx; [|done]. by rewrite !app_nil_r.
  - cbn [Nat.ltb Nat.leb length].
    pose proof (merge_loop_spec _ d dr m mr x xr (doc :: cd) cdr cm cmr cx cxr
                  eq_refl Hcm Hcx (doc :: cd) [] eq_refl) as Hloop.
    simpl in Hloop. rewrite !app_nil_r in Hloop.
    unfold enumerate. simpl. by rewrite Hloop.
Qed.

Lemma aligned_first_rows d dr m mr x xr :
  aligned (QueryResult (d :: dr) (m :: mr) (x :: xr)) →
  length m = length d ∧ length x = length d.
Proof. intros [Hm Hx]. simpl in *. by simplify_eq. Qed.

(** X17. Without an owner, on a collection that is reached, counted and
    not empty, the retriever returns the first row of the first answer as
    it is; when a visitor is given and conversation history is included,
    the first row of the conversation answer follows it, text by text,
    metadata by metadata and distance by distance. *)
Theorem query_vector_db_merge_order `{Services} (c : corpus) (query : string)
    (n_results : nat) (user_id visitor_id : pyval) (include_conversation : bool)
    d dr m mr x xr :
  truthy user_id = false →
  get_collection_raises = None → count_raises c = None → size c ≠ 0 →
  collection_query c query n_results None
  = Ok (QueryResult (d :: dr) (m :: mr) (x :: xr)) →
  aligned (QueryResult (d :: dr) (m :: mr) (x :: xr)) →
  (truthy visitor_id && include_conversation = false →
   query_vector_db c query n_results user_id visitor_id include_conversation
   = Ok (ResultSet d m x))
  ∧ (∀ cd cdr cm cmr cx cxr,
       truthy visitor_id && include_conversation = true →
       collection_query c query 3 (Some (conversation_filter visitor_id))
       = Ok (QueryResult (cd :: cdr) (cm :: cmr) (cx :: cxr)) →
       aligned (QueryResult (cd :: cdr) (cm :: cmr) (cx :: cxr)) →
       query_vector_db c query n_results user_id visitor_id
         include_conversation
       = Ok (ResultSet (d ++ cd) (m ++ cm) (x ++ cx))).
Proof.
  intros Huser Hget Hcount Hsize Hq Haligned.
  unfold query_vector_db, try_except, query_body,
    get_or_create_collection, collection_count.
  rewrite Hget, Hcount. cbn [raise_if mbind result_bind].
  apply Nat.eqb_neq in Hsize as ->. rewrite Hq. cbn [mbind result_bind].
  split.
  - intros ->. unfold structure_results. cbn. by rewrite Huser.
  - intros cd cdr cm cmr cx cxr -> Hconv Hcaligned.
    apply aligned_first_rows in Hcaligned as [Hcm Hcx].
    rewrite (merge_conversation_appended _ _ _ _ _ _ _ _ _ _ _ _ _ _ _
               Hconv Hcm Hcx).
    cbn [mbind result_bind]. unfold structure_results. cbn.
    by rewrite Huser.
Qed.

Lemma query_vector_db_merge_order_witness :
  @query_vector_db steady_services two_owner_corpus "What do you build?" 3
    PNone (PStr "v1") true
  = Ok (ResultSet ["I build compilers"; "I build compilers"]
                  [bio_meta "u1"; bio_meta "u1"] [1 # 4; 1 # 4]).
Proof.
  assert (Hsize : size two_owner_corpus ≠ 0) by (vm_compute; discriminate).
  assert (Haligned : aligned one_bio) by (split; reflexivity).
  destruct (@query_vector_db_merge_order steady_services two_owner_corpus
              "What do you build?" 3 PNone (PStr "v1") true
              ["I build compilers"] [] [bio_meta "u1"] [] [1 # 4] []
              eq_refl eq_refl eq_refl Hsize eq_refl Haligned)
    as [_ Hmerge].
  exact (Hmerge ["I build compilers"] [] [bio_meta "u1"] [] [1 # 4] []
           eq_refl eq_refl Haligned).
Defined.

Lemma zip3_unzip3 (ts : list triple) :
  zip3 (documents (unzip3 ts)) (metadatas (unzip3 ts)) (distances (unzip3 ts))
  = ts.
Proof. unfold zip3, unzip3. simpl. by rewrite !zip_fst_snd. Qed.

Lemma unzip3_zip3 d m x :
  length m = length d → length x = length d →
  unzip3 (zip3 d m x) = ResultSet d m x.
Proof.
  intros Hm Hx. unfold unzip3, zip3.
  rewrite snd_zip by (rewrite length_zip_with; lia).
  rewrite !fst_zip by (rewrite ?length_zip_with; lia).
  by rewrite snd_zip by lia.
Qed.

Lemma structure_results_owner owner d dr m mr x xr :
  truthy owner = true → length m = length d → length x = length d →
  structure_results owner (QueryResult (d :: dr) (m :: mr) (x :: xr))
  = Ok (unzip3 (spec_owner_filter owner (zip3 d m x))).
Proof.
  intros Howner Hm Hx. unfold structure_results. cbn. rewrite Howner.
  apply owner_filter_spec; lia.
Qed.

Lemma structure_results_no_owner d dr m mr x xr :
  structure_results PNone (QueryResult (d :: dr) (m :: mr) (x :: xr))
  = Ok (ResultSet d m x).
Proof. reflexivity. Qed.

(** X18. The owner filter is applied after retrieval and to nothing else:
    when the store answers with aligned lists, what the retriever returns
    for an owner is the owner filter of what it returns, for the same
    query, visitor and services, without an owner; its documents are a
    subsequence of those. *)
Theorem owner_filter_is_post_hoc `{Services} (c : corpus) (query : string)
    (n_results : nat) (owner visitor_id : pyval) (include_conversation : bool) :
  truthy owner = true →
  (∀ q n w qr, collection_query c q n w = Ok qr → aligned qr) →
  ∃ r0, query_vector_db c query n_results PNone visitor_id
          include_conversation = Ok r0
        ∧ query_vector_db c query n_results owner visitor_id
            include_conversation
          = Ok (unzip3 (spec_owner_filter owner
                          (zip3 (documents r0) (metadatas r0) (distances r0))))
        ∧ documents (unzip3 (spec_owner_filter owner
                          (zip3 (documents r0) (metadatas r0) (distances r0))))
          `sublist_of` documents r0.
Proof.
  intros Howner Hsvc.
  assert (Hsub : ∀ d m x, length m = length d → length x = length d →
            documents (unzip3 (spec_owner_filter owner (zip3 d m x)))
            `sublist_of` d).
  { intros d m x Hm Hx.
    replace d with (documents (unzip3 (zip3 d m x))) at 2
      by (by rewrite unzip3_zip3).
    unfold unzip3, spec_owner_filter. simpl.
    do 2 apply fmap_sublist. apply sublist_filter. }
  assert (Hempty : ∃ r0, Ok empty_results = Ok r0
            ∧ Ok empty_results
              = Ok (unzip3 (spec_owner_filter owner
                     (zip3 (documents r0) (metadatas r0) (distances r0))))
            ∧ documents (unzip3 (spec_owner_filter owner
                     (zip3 (documents r0) (metadatas r0) (distances r0))))
              `sublist_of` documents r0).
  { exists empty_results. split; [done|]. split; [done|]. by apply Hsub. }
  unfold query_vector_db, try_except, query_body.
  destruct get_or_create_collection as [[]|e];
    [|cbn [mbind result_bind]; by rewrite derives_Exception].
  destruct (collection_count c) as [count|e];
    [|cbn [mbind result_bind]; by rewrite derives_Exception].
  cbn [mbind result_bind]. destruct (count =? 0); [done|].
  destruct (collection_query c query n_results None) as [results|e] eqn:Hq;
    [|cbn [mbind result_bind]; by rewrite derives_Exception].
  cbn [mbind result_bind].
  assert (Hrows : ∀ d dr m mr x xr, length m = length d → length x = length d →
    ∃ r0, structure_results PNone (QueryResult (d :: dr) (m :: mr) (x :: xr))
          = Ok r0
        ∧ structure_results owner (QueryResult (d :: dr) (m :: mr) (x :: xr))
          = Ok (unzip3 (spec_owner_filter owner
                  (zip3 (documents r0) (metadatas r0) (distances r0))))
        ∧ documents (unzip3 (spec_owner_filter owner
                  (zip3 (documents r0) (metadatas r0) (distances r0))))
          `sublist_of` documents r0).
  { intros d dr m mr x xr Hm Hx. exists (ResultSet d m x).
    split; [done|]. split; [by apply structure_results_owner|].
    by apply Hsub. }
  destruct (aligned_rows results (Hsvc _ _ _ _ Hq))
    as [(Hd0 & Hm0 & Hx0)|(d & dr & m & mr & x & xr & -> & Hm & Hx)].
  - destruct results as [ds ms xs]. simpl in Hd0. subst ds.
    destruct (truthy visitor_id && include_conversation).
    + rewrite merge_conversation_no_rows. cbn [mbind result_bind].
      rewrite !structure_results_no_rows. done.
    + rewrite !structure_results_no_rows. done.
  - destruct (truthy visitor_id && include_conversation).
    + destruct (merge_conversation_rows c query visitor_id d dr m mr x xr
                  Hsvc Hm Hx)
        as [->|(conv & cd & cdr & cm & cmr & cx & cxr & Hq' & -> & Hcm & Hcx & ->)].
      * cbn [mbind result_bind].
        destruct (Hrows d dr m mr x xr Hm Hx) as (r0 & -> & -> & Hr0).
        by exists r0.
      * cbn [mbind result_bind].
        destruct (Hrows (d ++ cd) dr (m ++ cm) mr (x ++ cx) xr)
          as (r0 & -> & -> & Hr0); [rewrite !length_app; lia..|].
        by exists r0.
    + destruct (Hrows d dr m mr x xr Hm Hx) as (r0 & -> & -> & Hr0).
      by exists r0.
Qed.

Lemma owner_filter_is_post_hoc_witness :
  ∃ r0, @query_vector_db steady_services two_owner_corpus "What do you build?"
          3 PNone (PStr "v1") true = Ok r0
        ∧ @query_vector_db steady_services two_owner_corpus
            "What do you build?" 3 (PStr "u2") (PStr "v1") true
          = Ok (unzip3 (spec_owner_filter (PStr "u2")
                          (zip3 (documents r0) (metadatas r0) (distances r0)))).
Proof.
  destruct (@owner_filter_is_post_hoc steady_services two_owner_corpus
              "What do you build?" 3 (PStr "u2") (PStr "v1") true eq_refl)
    as (r0 & Hr0 & Hfiltered & _).
  - intros q n w qr [= <-]. split; reflexivity.
  - exists r0. exact (conj Hr0 Hfiltered).
Defined.

(** X19. Filtering twice is filtering once: the owner filter applied to
    what it returned, for the same owner, returns it again. *)
Theorem owner_filter_idempotent (owner : pyval) (docs : list string)
    (metas : list pydict) (dists : list Q) (r : result_set) :
  length docs = length metas → length dists = length metas →
  owner_filter owner docs metas dists = Ok r →
  owner_filter owner (documents r) (metadatas r) (distances r) = Ok r.
Proof.
  intros Hd Hx. rewrite owner_filter_spec by done. intros [= <-].
  rewrite owner_filter_spec by (unfold unzip3; simpl; by rewrite !length_fmap).
  rewrite zip3_unzip3. unfold spec_owner_filter.
  by rewrite list_filter_filter_l.
Qed.

Lemma owner_filter_idempotent_witness :
  owner_filter (PStr "u1") ["mine"; "chat"] [bio_meta "u1"; chat_meta]
               [2 # 10; 3 # 10]
  = Ok (ResultSet ["mine"; "chat"] [bio_meta "u1"; chat_meta]
                  [2 # 10; 3 # 10]).
Proof.
  apply (owner_filter_idempotent (PStr "u1") ["theirs"; "mine"; "chat"]
           [bio_meta "u2"; bio_meta "u1"; chat_meta]
           [1 # 10; 2 # 10; 3 # 10]
           (ResultSet ["mine"; "chat"] [bio_meta "u1"; chat_meta]
                      [2 # 10; 3 # 10])); reflexivity.
Defined.

(** ** The context assembler: blocks *)



Lemma history_loop_spec `{Services} (msgs : list pydict) acc :
  history_loop acc (PDict <$> msgs)
  = Ok (acc +:+ concat_all (history_turn <$> msgs)).
Proof.
  revert acc. induction msgs as [|msg msgs IH]; intros acc.
  - simpl. by rewrite append_empty_r.
  - cbn [fmap list_fmap history_loop].
    assert (Hline : history_line acc (PDict msg) = Ok (acc +:+ history_turn msg)).
    { unfold history_line, history_turn. cbn [py_get mbind result_bind].
      by destruct (py_eq (dict_get msg "sender" PNone) (PStr "user")). }
    rewrite Hline. cbn [mbind result_bind]. rewrite IH.
    cbn [concat_all foldr]. by rewrite append_assoc.
Qed.

(** X21. The history block of a list of turns is empty for no turn;
    otherwise it is the header [PREVIOUS CONVERSATION:], one line per turn
    in the order given - [Visitor: <message>] for a turn whose sender is
    [user], [You: <response>] for any other, a missing text shown as
    empty - and a closing blank line. Without a history ([None]) the block
    is empty. *)
Theorem build_conversation_context_spec `{Services} (msgs : list pydict) :
  build_conversation_context (PList (PDict <$> msgs)) = Ok (history_block msgs)
  ∧ build_conversation_context PNone = Ok EmptyString.
Proof.
  split; [|reflexivity]. unfold build_conversation_context, history_block.
  destruct msgs as [|msg msgs]; [reflexivity|].
  cbn [fmap list_fmap truthy py_len length Nat.ltb Nat.leb mbind result_bind
       py_iter].
  change (PDict msg :: (PDict <$> msgs)) with (PDict <$> (msg :: msgs)).
  rewrite history_loop_spec. cbn [mbind result_bind].
  by rewrite !append_assoc.
Qed.

Lemma str_or_nonempty (a b : string) : b ≠ EmptyString → str_or a b ≠ EmptyString.
Proof.
  intros Hb. unfold str_or. destruct (String.eqb a EmptyString) eqn:Ha; [done|].
  by apply String.eqb_neq.
Qed.

(** X22. The persona name is never empty: whenever name resolution
    returns, for any profile, it returns a string of at least one
    character. *)
Theorem resolve_user_name_nonempty (profile_data : pyval) (name : string) :
  resolve_user_name profile_data = Ok name → name ≠ EmptyString.
Proof.
  unfold resolve_user_name.
  destruct (truthy profile_data); [|by intros [= <-]].
  destruct (py_get profile_data "name" PNone) as [v|e]; [|done].
  cbn [mbind result_bind].
  match goal with |- (?u ≫= _) = _ → _ => destruct u as [use_name|e] end;
    [|done].
  cbn [mbind result_bind].
  match goal with |- (?u ≫= _) = _ → _ => destruct u as [user_name|e] end;
    [|done].
  cbn [mbind result_bind]. intros [= <-]. by apply str_or_nonempty.
Qed.

Lemma resolve_user_name_nonempty_witness :
  resolve_user_name (PDict [("bio", PStr "I am Grace, a pioneer")])
  = Ok "Grace," ∧ "Grace," ≠ EmptyString.
Proof.
  split; [reflexivity|].
  apply (resolve_user_name_nonempty
           (PDict [("bio", PStr "I am Grace, a pioneer")]) "Grace,").
  reflexivity.
Defined.

(** *** The name taken from the bio *)

Lemma prefix_append sep a b :
  String.prefix sep a = true → String.prefix sep (a +:+ b) = true.
Proof.
  rewrite !prefix_spec. intros [post ->]. exists (post +:+ b).
  by rewrite append_assoc.
Qed.

(** Passing over the rest of a matched separator. *)
Lemma split_go_skip sep (a b : string) cur :
  split_go sep (a +:+ b) (String.length a) cur = split_go sep b 0 cur.
Proof.
  induction a as [|c a IH]; [by destruct b|].
  rewrite append_cons. cbn [String.length split_go]. apply IH.
Qed.

Lemma split_go_match sep c0 (rest cur : string) :
  split_go (String c0 sep) (String c0 sep +:+ rest) 0 cur
  = cur :: split_go (String c0 sep) rest 0 EmptyString.
Proof.
  rewrite append_cons. cbn [split_go].
  assert (Hp : String.prefix (String c0 sep) (String c0 (sep +:+ rest)) = true).
  { apply prefix_spec. by exists rest. }
  rewrite Hp. f_equal.
  replace (String.length (String c0 sep) - 1) with (String.length sep)
    by (simpl; lia).
  apply split_go_skip.
Qed.

(** The first piece runs up to the first occurrence of the separator, or
    to the end when there is none. *)
Lemma split_go_first sep c0 (s : string) :
  ∀ cur,
    (contains (String c0 sep) s = false
     ∧ split_go (String c0 sep) s 0 cur = [cur +:+ s])
    ∨ ∃ pre rest,
        s = pre +:+ String c0 sep +:+ rest
        ∧ contains (String c0 sep) pre = false
        ∧ split_go (String c0 sep) s 0 cur
          = (cur +:+ pre) :: split_go (String c0 sep) rest 0 EmptyString.
Proof.
  induction s as [|c s IH]; intros cur.
  - left. split; [done|]. simpl. by rewrite append_empty_r.
  - destruct (String.prefix (String c0 sep) (String c s)) eqn:Hp.
    + right. apply prefix_spec in Hp as [rest Hrest].
      exists EmptyString, rest. split; [done|]. split; [done|].
      rewrite Hrest, append_empty_r. apply split_go_match.
    + destruct (IH (cur +:+ char_str c))
        as [[Hnone Hsplit]|(pre & rest & Hs & Hpre & Hsplit)].
      * left. split.
        -- cbn [contains]. by rewrite Hp, Hnone.
        -- cbn [split_go]. rewrite Hp, Hsplit.
           by rewrite append_assoc.
      * right. exists (String c pre), rest. split; [|split].
        -- by rewrite append_cons, Hs.
        -- cbn [contains]. rewrite Hpre, orb_false_r.
           destruct (String.prefix (String c0 sep) (String c pre)) eqn:Hp';
             [|done].
           apply (prefix_append _ _ (String c0 sep +:+ rest)) in Hp'.
           rewrite append_cons, <- Hs in Hp'. congruence.
        -- cbn [split_go]. rewrite Hp, Hsplit.
           by rewrite append_assoc.
Qed.

Lemma split_first_piece sep c0 (s : string) :
  ∃ piece post,
    item (split s (String c0 sep)) 0 = Ok piece
    ∧ s = piece +:+ post ∧ contains (String c0 sep) piece = false
    ∧ (post = EmptyString ∨ String.prefix (String c0 sep) post = true).
Proof.
  unfold split.
  destruct (split_go_first sep c0 s EmptyString)
    as [[Hnone ->]|(pre & rest & Hs & Hpre & ->)].
  - exists s, EmptyString. rewrite append_empty_r. by repeat split; [..|left].
  - exists pre, (String c0 sep +:+ rest). repeat split; [done..|right].
    apply prefix_spec. by exists rest.
Qed.

(** X23. A name taken from the bio is the text that follows the first
    [I am ] of the bio, up to the next space, the next [I am ] or the end
    of the bio, whichever comes first: the bio reads as [pre], [I am ],
    the name, [post], where [pre] holds no [I am ], the name holds no
    space and has more than two characters, and [post] is empty or starts
    with a space or with [I am ]. *)
Theorem name_from_bio_spec (bio name : string) :
  name_from_bio (PStr bio) = Ok name → name ≠ EmptyString →
  ∃ pre post,
    bio = pre +:+ "I am " +:+ name +:+ post
    ∧ contains "I am " pre = false
    ∧ contains " " name = false
    ∧ 2 < String.length name
    ∧ (post = EmptyString ∨ String.prefix " " post = true
       ∨ String.prefix "I am " post = true).
Proof.
  unfold name_from_bio. cbn [py_contains mbind result_bind].
  destruct (contains "I am " bio) eqn:Hc; [|by intros [= <-]].
  unfold split.
  destruct (split_go_first " am " "I" bio EmptyString)
    as [[Hnone _]|(pre & rest & Hbio & Hpre & ->)]; [congruence|].
  cbn [item lookup list_lookup].
  destruct (split_first_piece " am " "I" rest)
    as (after & post1 & Hitem & Hrest & _ & Hpost1).
  unfold split, item in Hitem.
  destruct (split_go "I am " rest 0 EmptyString) as [|after' pieces] eqn:Hpieces;
    [done|].
  cbn [lookup list_lookup] in Hitem. injection Hitem as ->.
  change (item ((EmptyString +:+ pre) :: after :: pieces) 1) with (Ok after).
  cbn [mbind result_bind].
  destruct (split_first_piece EmptyString " " after)
    as (name_part & post2 & Hitem2 & Hafter & Hblank & Hpost2).
  unfold split in Hitem2. rewrite Hitem2. cbn [mbind result_bind try_except].
  destruct (negb (String.eqb name_part EmptyString)
            && (2 <? String.length name_part)) eqn:Hok.
  - intros [= <-] _. apply andb_true_iff in Hok as [_ Hlen].
    apply Nat.ltb_lt in Hlen.
    exists pre, (post2 +:+ post1).
    split; [|split; [done|split; [done|split; [done|]]]].
    { by rewrite Hbio, Hrest, Hafter, !append_assoc. }
    destruct Hpost2 as [->|Hpost2].
    + destruct Hpost1 as [->|Hpost1]; [by left|by right; right].
    + right. left. by apply prefix_append.
  - by intros [= <-].
Qed.

Lemma name_from_bio_spec_witness :
  ∃ pre post,
    "Hello, I am Grace, a pioneer" = pre +:+ "I am " +:+ "Grace," +:+ post
    ∧ contains "I am " pre = false
    ∧ contains " " "Grace," = false
    ∧ 2 < String.length "Grace,"
    ∧ (post = EmptyString ∨ String.prefix " " post = true
       ∨ String.prefix "I am " post = true).
Proof.
  apply (name_from_bio_spec "Hello, I am Grace, a pioneer" "Grace,");
    [reflexivity|discriminate].
Defined.

(** ** The chat route *)

Lemma checked_response_nonblank (v : pyval) (s : string) :
  checked_response v = Ok s → strip s ≠ EmptyString.
Proof.
  unfold checked_response. destruct (truthy v).
  - cbn [negb]. destruct v as [| | | |t| |]; try done.
    cbn [py_strip mbind result_bind as_text].
    destruct (String.eqb (strip t) EmptyString) eqn:Ht.
    + intros [= <-]. vm_compute. discriminate.
    + intros [= <-]. by apply String.eqb_neq.
  - intros [= <-]. vm_compute. discriminate.
Qed.

(** What the [try] block of the route does to the transcript: nothing when
    it fails or answers a blank message, one row with the reply
    otherwise. *)
Lemma chat_body_outcome `{Services} `{RouteServices} (c : corpus)
    (request : chat_request) (rows : list log_row) :
  (∃ e, chat_body c request rows = (rows, Raise e))
  ∨ (strip (req_message request) = EmptyString
     ∧ chat_body c request rows = (rows, Ok (ChatResponse blank_reply 0)))
  ∨ (strip (req_message request) ≠ EmptyString
     ∧ ∃ reply, strip reply ≠ EmptyString
         ∧ chat_body c request rows
           = (rows ++ [row_of request reply],
              Ok (ChatResponse reply elapsed_ms))).
Proof.
  unfold chat_body.
  destruct (String.eqb (req_message request) EmptyString
            || String.eqb (strip (req_message request)) EmptyString) eqn:Hblank.
  - right. left. split; [|done].
    apply orb_true_iff in Hblank as [Hm|Hs].
    + apply String.eqb_eq in Hm. by rewrite Hm.
    + by apply String.eqb_eq.
  - apply orb_false_iff in Hblank as [_ Hs]. apply String.eqb_neq in Hs.
    unfold mbind, state_m_bind, st_bind, st_lift.
    destruct (query_vector_db _ _ _ _ _ _) as [search_results|e];
      [|left; by exists e].
    destruct (get_profile_data _) as [profile_data|e]; [|left; by exists e].
    destruct (if truthy profile_data then _ else _) as [_|e];
      [|left; by exists e].
    destruct (generate_ai_response _ _ _ _) as [ai_response|e];
      [|left; by exists e].
    destruct (checked_response ai_response) as [reply|e] eqn:Hreply;
      [|left; by exists e].
    unfold log_chat_message, st_update.
    destruct (log_raises rows (row_of request reply)) as [e|];
      [left; by exists e|].
    right. right. split; [done|]. exists reply. split; [|done].
    by eapply checked_response_nonblank.
Qed.

(** The answers the route replaces by its fallback: [None], the empty
    text, and text of nothing but white space, the no-break space and the
    next-line control included. *)
Example blank_answers_get_fallback :
  checked_response PNone = Ok fallback_reply
  ∧ checked_response (PStr EmptyString) = Ok fallback_reply
  ∧ checked_response (PStr (nl +:+ " ")) = Ok fallback_reply
  ∧ checked_response (PStr (nbsp +:+ String (ascii_of_nat 133) EmptyString))
    = Ok fallback_reply
  ∧ checked_response (PStr (nbsp +:+ "Hello")) = Ok (nbsp +:+ "Hello").
Proof. repeat split; reflexivity. Qed.

(** X24. A message that is empty or blank - nothing but characters that
    [strip] removes, the no-break space among them - is answered at once
    with the fixed request to try again and a reported time of 0: nothing
    is retrieved, generated or logged, whatever the services are. *)
Theorem chat_blank_message `{Services} `{RouteServices} (c : corpus)
    (request : chat_request) (rows : list log_row) :
  strip (req_message request) = EmptyString →
  chat c request rows = (rows, Ok (Replied (ChatResponse blank_reply 0))).
Proof.
  intros Hblank. unfold chat, chat_body, st_try.
  rewrite Hblank. cbn [String.eqb]. by rewrite orb_true_r.
Qed.

Lemma chat_blank_message_witness :
  strip (req_message blank_request) = EmptyString
  ∧ @chat steady_services quiet_route ∅ blank_request []
    = ([], Ok (Replied (ChatResponse blank_reply 0))).
Proof.
  assert (Hblank : strip (req_message blank_request) = EmptyString)
    by reflexivity.
  exact (conj Hblank
           (@chat_blank_message steady_services quiet_route ∅ blank_request
              [] Hblank)).
Defined.

(** X25. The route never answers with an empty or blank reply: whenever it
    replies, the text of the reply holds a character that [strip] does
    not remove, that is, one that is not white space to [str.isspace]. *)
Theorem chat_reply_not_blank `{Services} `{RouteServices} (c : corpus)
    (request : chat_request) (rows rows' : list log_row) (r : chat_response) :
  chat c request rows = (rows', Ok (Replied r)) →
  strip (response r) ≠ EmptyString.
Proof.
  unfold chat, st_try, mbind, state_m_bind, st_bind.
  destruct (chat_body_outcome c request rows)
    as [[e ->]|[[_ ->]|(_ & reply & Hreply & ->)]].
  - rewrite derives_Exception. unfold log_chat_message, st_update.
    destruct (log_raises rows (row_of request error_reply));
      rewrite ?derives_Exception; done.
  - intros [= _ <-]. vm_compute. discriminate.
  - by intros [= _ <-].
Qed.

Lemma chat_reply_not_blank_witness :
  @chat steady_services quiet_route ∅ hello_request []
  = ([row_of hello_request "Hello"], Ok (Replied (ChatResponse "Hello" 12)))
  ∧ strip "Hello" ≠ EmptyString.
Proof.
  assert (Hrun : @chat steady_services quiet_route ∅ hello_request []
                 = ([row_of hello_request "Hello"],
                    Ok (Replied (ChatResponse "Hello" 12))))
    by (vm_compute; reflexivity).
  exact (conj Hrun
           (@chat_reply_not_blank steady_services quiet_route ∅ hello_request
              [] _ _ Hrun)).
Defined.

(** X26. The route ends with a reply or with status 500, never with
    another failure, and writes at most one row to the transcript: a reply
    to a message that is not blank is logged once, with the text that is
    returned; a failure is logged once with the error reply when the
    transcript store accepts the row, and not at all when it does not. *)
Theorem chat_logs_once `{Services} `{RouteServices} (c : corpus)
    (request : chat_request) (rows : list log_row) :
  (strip (req_message request) = EmptyString
   ∧ chat c request rows = (rows, Ok (Replied (ChatResponse blank_reply 0))))
  ∨ (∃ reply, chat c request rows
              = (rows ++ [row_of request reply],
                 Ok (Replied (ChatResponse reply elapsed_ms))))
  ∨ chat c request rows
    = (rows ++ [row_of request error_reply], Ok (HTTPError 500))
  ∨ chat c request rows = (rows, Ok (HTTPError 500)).
Proof.
  unfold chat, st_try, mbind, state_m_bind, st_bind.
  destruct (chat_body_outcome c request rows)
    as [[e ->]|[[Hblank ->]|(_ & reply & _ & ->)]].
  - rewrite derives_Exception. right. right.
    unfold log_chat_message, st_update.
    destruct (log_raises rows (row_of request error_reply)) as [e'|].
    + right. by rewrite derives_Exception.
    + by left.
  - by left.
  - right. left. by exists reply.
Qed.
